(** * ESP32-C6 IIS3DWB high-speed web monitor: acquisition loop and sample store

    A shallow embedding of [imu_task] and [data_processor_task] of
    [ESP32C6_IIS3_WebMonitor_HighSpeed/main/main.c] and of the data types of
    [imu_manager.h], together with the statistics window, the sample store
    they feed and the properties of both. *)

From Stdlib Require Import ZArith List Bool Lia.
From Stdlib Require Import Floats.SpecFloat.
From stdpp Require Import base numbers list.

Local Open Scope Z_scope.

(** ** Machine integers

    C unsigned integers are integers in [0, 2^w) with the wrap-around of
    every operation written out. *)
Module Mach.

Definition wrap (w : Z) (x : Z) : Z := x mod 2 ^ w.

Definition wrap16 : Z -> Z := wrap 16.
Definition wrap32 : Z -> Z := wrap 32.
Definition wrap64 : Z -> Z := wrap 64.

Definition in_range (w : Z) (x : Z) : Prop := 0 <= x < 2 ^ w.

(** [a - b] on [uint64_t]. *)
Definition u64_sub (a b : Z) : Z := wrap64 (a - b).

(** [a + b] on [uint32_t]. *)
Definition u32_add (a b : Z) : Z := wrap32 (a + b).

(** [a - b] on [uint32_t]. *)
Definition u32_sub (a b : Z) : Z := wrap32 (a - b).

(** [a * b] on [uint32_t]. *)
Definition u32_mul (a b : Z) : Z := wrap32 (a * b).

End Mach.

(** ** Single-precision floats

    C [float] on the target is IEEE 754 binary32 with round to nearest even:
    24 bits of mantissa, infinities at exponent 128. *)
Module F32.

Definition prec : Z := 24.
Definition emax : Z := 128.

Definition float32 : Type := spec_float.

(** Conversion of an integer to [float] (the implicit conversion of a
    [uint32_t] or [uint64_t] operand of a float division). *)
Definition of_Z (z : Z) : float32 := binary_normalize prec emax z 0 false.

Definition div (x y : float32) : float32 := SFdiv prec emax x y.

(** The literal [1000000.0f]. *)
Definition f1000000 : float32 := of_Z 1000000.

End F32.

Import Mach.
Abbreviation float32 := F32.float32.

(** ** [imu_data_t] (imu_manager.h) *)

Record accelerometer_t : Type := {
  x_g : float32;
  y_g : float32;
  z_g : float32;
  magnitude_g : float32;
  valid : bool
}.

Record stats_t : Type := {
  fifo_level : Z;            (* uint16_t *)
  samples_read : Z;          (* uint16_t *)
  odr_hz : float32;
  batch_interval_us : float32;
  samples_per_second : float32
}.

Record imu_data_t : Type := {
  timestamp_us : Z;          (* uint64_t *)
  accelerometer : accelerometer_t;
  stats : stats_t
}.

(** The values a C [imu_data_t] can hold. *)
Definition imu_data_wf (d : imu_data_t) : Prop :=
  in_range 64 (timestamp_us d) /\
  in_range 16 (fifo_level (stats d)) /\
  in_range 16 (samples_read (stats d)).

Definition IMU_MANAGER_MAX_SAMPLES : nat := 128.

(** ** The sample store

    [data_buffer.c] and [imu_manager.c] are not part of the sources at hand:
    [main.c] only calls [data_buffer_init], [data_buffer_add] and
    [data_buffer_get_latest], and [imu_manager.h] only declares
    [imu_manager_copy_recent_samples]. *)

(** Modelled from the spec: a stored sample of [data_buffer.c], the decoded
    reading tagged with the sequence number of the push that wrote it. *)
Record sample_t : Type := {
  sample_data : imu_data_t;
  sample_seq : Z             (* uint32_t *)
}.

(** Modelled from the spec: the store of [data_buffer.c], a fixed-capacity
    ring of N slots, each either not yet written or holding the sample last
    written at that position, plus the write cursor and the latest
    sequence number. *)
Record data_buffer_t : Type := {
  slots : list (option sample_t);
  cursor : nat;
  sequence_id : Z            (* uint32_t *)
}.

Definition capacity (b : data_buffer_t) : nat := length (slots b).

(** Modelled from the spec: [data_buffer_init], the store at construction;
    every slot is in its initial, not yet written state. *)
Definition data_buffer_init (N : nat) : data_buffer_t :=
  {| slots := replicate N None; cursor := 0%nat; sequence_id := 0 |}.

(** Modelled from the spec: [data_buffer_add], the store's push. It advances
    the cursor modulo N, writes the sample into that slot and publishes the
    new sequence number last. *)
Definition data_buffer_add (b : data_buffer_t) (d : imu_data_t) : data_buffer_t :=
  let c := ((cursor b + 1) mod capacity b)%nat in
  let s := u32_add (sequence_id b) 1 in
  {| slots := <[c := Some {| sample_data := d; sample_seq := s |}]> (slots b);
     cursor := c;
     sequence_id := s |}.

(** Modelled from the spec: [data_buffer_get_latest], the store's
    peek_latest. It returns a copy of the sample at the most recently
    published cursor position, [None] (not [ESP_OK]) when that slot was
    never written. *)
Definition data_buffer_get_latest (b : data_buffer_t) : option sample_t :=
  match slots b !! cursor b with
  | Some (Some s) => Some s
  | _ => None
  end.

(** Modelled from the spec: the slot read of the bulk copy of
    [imu_manager.c], the slot [k] positions behind the cursor, [k <= N]. *)
Definition slot_back (b : data_buffer_t) (k : nat) : option sample_t :=
  match slots b !! ((cursor b + capacity b - k) mod capacity b)%nat with
  | Some (Some s) => Some s
  | _ => None
  end.

(** Modelled from the spec: the copy loop of [imu_manager.c]. It walks back
    from position [k] behind the cursor over at most [n] written slots,
    consing each onto [acc], so that the result is oldest first. *)
Fixpoint copy_back (b : data_buffer_t) (k n : nat) (acc : list sample_t)
  : list sample_t :=
  match n with
  | O => acc
  | S n' =>
      match slot_back b k with
      | Some s => copy_back b (S k) n' (s :: acc)
      | None => acc
      end
  end.

(** Modelled from the spec: what the bulk read of [imu_manager.c] hands
    back, the samples, oldest first, each with its sequence number, and the
    store's sequence number at copy time. *)
Record recent_t : Type := {
  recent_samples : list sample_t;
  recent_sequence_id : Z
}.

(** Modelled from the spec: [imu_manager_copy_recent_samples], the store's
    copy_recent. Non-destructive; copies the written slots behind the
    cursor, at most [max_samples] and at most N of them. Run without a
    concurrent push, the snapshot of (cursor, sequence number) taken first is
    still current when the copy completes, so no retry happens. *)
Definition imu_manager_copy_recent_samples (b : data_buffer_t) (max_samples : nat)
  : recent_t :=
  {| recent_samples := copy_back b 0 (Nat.min max_samples (capacity b)) [];
     recent_sequence_id := sequence_id b |}.

(** A push history applied to a store, oldest push first. *)
Definition push_all (b : data_buffer_t) (ds : list imu_data_t) : data_buffer_t :=
  fold_left data_buffer_add ds b.

(** The samples a push history leaves behind, oldest first: the push after
    sequence number [seq] is tagged [seq + 1] on 32 bits, and so on. *)
Fixpoint tagged (seq : Z) (ds : list imu_data_t) : list sample_t :=
  match ds with
  | [] => []
  | d :: ds' =>
      {| sample_data := d; sample_seq := u32_add seq 1 |}
        :: tagged (u32_add seq 1) ds'
  end.

(** The last [n] elements of a list, in order. *)
Definition last_n {A : Type} (n : nat) (l : list A) : list A :=
  drop (length l - n) l.

(** The representation invariant: a store of capacity [N] holds the push
    history [h] (oldest first) when walking back from the cursor reads the
    history newest first, and not yet written slots beyond it. *)
Definition store_repr (N : nat) (b : data_buffer_t) (h : list sample_t) : Prop :=
  capacity b = N /\
  (cursor b < N)%nat /\
  forall k, (k < N)%nat -> slot_back b k = rev h !! k.

(** Modelled from the spec: what a reader of the store computes from the
    sequence number it saw last and the one it observes next. The gap is
    their wrap-around-safe 32-bit difference; a gap of 1 is the next push,
    and every unit above 1 is one push the reader never saw. *)
Definition sequence_gap (last_seen observed : Z) : Z :=
  u32_sub observed last_seen.

Definition missed_samples (last_seen observed : Z) : Z :=
  sequence_gap last_seen observed - 1.

(** The pushes of a history a reader never saw, when it saw [last_seen] and
    then [observed]. *)
Definition unseen (last_seen observed : Z) (h : list sample_t) : list sample_t :=
  List.filter (fun s => (last_seen <? sample_seq s) && (sample_seq s <? observed)) h.

(** ** The acquisition task, [imu_task] *)

(** What [imu_manager_read_all(&sensor_data)] hands back in one cycle:
    [ESP_OK] with [sensor_data] filled in, or any other [esp_err_t]. *)
Inductive read_all_t : Type :=
  | ReadOk (d : imu_data_t)
  | ReadErr (code : Z).

(** What the environment offers during one loop iteration: the decode
    result, and the wall clock ([esp_timer_get_time]) and tick count
    ([xTaskGetTickCount]) the iteration could read. *)
Record cycle_env : Type := {
  env_read_all : read_all_t;
  env_clock_us : Z;
  env_tick_count : Z
}.

(** The calls the task makes, in order. *)
Inductive event : Type :=
  | Ev_data_buffer_add (d : imu_data_t)
  | Ev_log_info
  | Ev_log_stats (msg_per_sec samples_per_sec magnitude : float32) (fifo batch : Z)
  | Ev_log_warn
  | Ev_log_error
  | Ev_vTaskDelay (ticks : Z)
  | Ev_vTaskDelayUntil (period : Z)
  | Ev_vTaskDelete.

(** The task's locals that live across iterations, and the shared store. *)
Record imu_task_state : Type := {
  last_wake_time : Z;        (* TickType_t *)
  batch_count : Z;           (* uint32_t *)
  sample_accumulator : Z;    (* uint32_t *)
  stats_window_start : Z;    (* uint64_t *)
  buffer : data_buffer_t
}.

Inductive task_status : Type :=
  | TaskRunning (st : imu_task_state)
  | TaskDeleted.

Section Task.

(** FreeRTOS's tick rate; [FreeRTOSConfig.h] is not part of the sources. *)
Variable configTICK_RATE_HZ : Z.

(** FreeRTOS's [pdMS_TO_TICKS], on the 32-bit [TickType_t]. *)
Definition pdMS_TO_TICKS (ms : Z) : Z :=
  wrap32 (u32_mul (wrap32 ms) (wrap32 configTICK_RATE_HZ) / 1000).

Definition frequency : Z := pdMS_TO_TICKS 1.

Definition tick_delay : Z := if 0 <? frequency then frequency else 1.

(** The statistics line of a closing window. *)
Definition log_stats (count items elapsed : Z) (d : imu_data_t) : event :=
  let elapsed_s := F32.div (F32.of_Z elapsed) F32.f1000000 in
  let msg_per_sec := F32.div (F32.of_Z count) elapsed_s in
  let samples_per_sec := F32.div (F32.of_Z items) elapsed_s in
  Ev_log_stats msg_per_sec samples_per_sec
    (magnitude_g (accelerometer d)) (fifo_level (stats d)) (samples_read (stats d)).

(** The [if] of the loop body: what one decode result does to the locals
    and the store. *)
Definition imu_task_cycle (st : imu_task_state) (r : read_all_t)
  : imu_task_state * list event :=
  match r with
  | ReadOk sensor_data =>
      let buf := data_buffer_add (buffer st) sensor_data in
      let count := u32_add (batch_count st) 1 in
      let items := u32_add (sample_accumulator st) (samples_read (stats sensor_data)) in
      let now := timestamp_us sensor_data in
      let elapsed := u64_sub now (stats_window_start st) in
      if 1000000 <=? elapsed then
        ({| last_wake_time := last_wake_time st;
            batch_count := 0;
            sample_accumulator := 0;
            stats_window_start := now;
            buffer := buf |},
         [Ev_data_buffer_add sensor_data; log_stats count items elapsed sensor_data])
      else
        ({| last_wake_time := last_wake_time st;
            batch_count := count;
            sample_accumulator := items;
            stats_window_start := stats_window_start st;
            buffer := buf |},
         [Ev_data_buffer_add sensor_data])
  | ReadErr _ =>
      (st, [Ev_log_warn; Ev_vTaskDelay (pdMS_TO_TICKS 5)])
  end.

(** One iteration of [while (1)]: the cycle, then
    [vTaskDelayUntil(&last_wake_time, tick_delay)]. *)
Definition imu_task_body (st : imu_task_state) (env : cycle_env)
  : imu_task_state * list event :=
  let '(st1, evs) := imu_task_cycle st (env_read_all env) in
  ({| last_wake_time := u32_add (last_wake_time st1) tick_delay;
      batch_count := batch_count st1;
      sample_accumulator := sample_accumulator st1;
      stats_window_start := stats_window_start st1;
      buffer := buffer st1 |},
   evs ++ [Ev_vTaskDelayUntil tick_delay]).

(** The iterations of the loop over the environment's cycles; the events
    are kept per iteration. *)
Fixpoint imu_task_run (st : imu_task_state) (envs : list cycle_env)
  : imu_task_state * list (list event) :=
  match envs with
  | [] => (st, [])
  | env :: envs' =>
      let '(st1, evs) := imu_task_body st env in
      let '(st2, log) := imu_task_run st1 envs' in
      (st2, evs :: log)
  end.

(** The code before the loop: the start-up log line, [imu_manager_init],
    then the locals. [tick0] is [xTaskGetTickCount()], [clock0] is
    [esp_timer_get_time()] (an [int64_t], stored into a [uint64_t]). *)
Definition imu_task_start (init_ok : bool) (tick0 clock0 : Z) (buf : data_buffer_t)
  : task_status * list event :=
  if init_ok then
    (TaskRunning {| last_wake_time := wrap32 tick0;
                    batch_count := 0;
                    sample_accumulator := 0;
                    stats_window_start := wrap64 clock0;
                    buffer := buf |}, [Ev_log_info])
  else (TaskDeleted, [Ev_log_info; Ev_log_error; Ev_vTaskDelete]).

(** The task as a machine: a running task takes one loop iteration, a
    deleted one takes none. *)
Definition imu_task_step (t : task_status) (env : cycle_env)
  : task_status * list event :=
  match t with
  | TaskRunning st =>
      let '(st1, evs) := imu_task_body st env in (TaskRunning st1, evs)
  | TaskDeleted => (TaskDeleted, [])
  end.

Fixpoint imu_task_steps (t : task_status) (envs : list cycle_env)
  : task_status * list (list event) :=
  match envs with
  | [] => (t, [])
  | env :: envs' =>
      let '(t1, evs) := imu_task_step t env in
      let '(t2, log) := imu_task_steps t1 envs' in
      (t2, evs :: log)
  end.

(** ** The analytics task, [data_processor_task] *)

(** One iteration of its loop over the store as it stands: a sample read
    with [data_buffer_get_latest] is counted (and every 1000th logged), an
    empty store waits 10 ms more; either way the task then sleeps 100 ms. *)
Definition data_processor_body (processed_count : Z) (b : data_buffer_t)
  : Z * list event :=
  match data_buffer_get_latest b with
  | Some _ =>
      let count := u32_add processed_count 1 in
      (count,
       (if count mod 1000 =? 0 then [Ev_log_info] else [])
         ++ [Ev_vTaskDelay (pdMS_TO_TICKS 100)])
  | None =>
      (processed_count,
       [Ev_vTaskDelay (pdMS_TO_TICKS 10); Ev_vTaskDelay (pdMS_TO_TICKS 100)])
  end.

End Task.

(** The two rates of a statistics line. *)
Record throughput_t : Type := {
  throughput_batches_per_sec : float32;
  throughput_samples_per_sec : float32
}.

(** The statistics line an iteration logged, if its window closed. *)
Fixpoint stats_line (evs : list event) : option throughput_t :=
  match evs with
  | [] => None
  | Ev_log_stats m s _ _ _ :: _ =>
      Some {| throughput_batches_per_sec := m; throughput_samples_per_sec := s |}
  | _ :: evs' => stats_line evs'
  end.

Definition is_buffer_add (e : event) : bool :=
  match e with Ev_data_buffer_add _ => true | _ => false end.

Definition is_delay_until (e : event) : bool :=
  match e with Ev_vTaskDelayUntil _ => true | _ => false end.

(** The part of the task's state the statistics window lives in. *)
Definition window_of (st : imu_task_state) : Z * Z * Z :=
  (stats_window_start st, batch_count st, sample_accumulator st).

(** A cycle whose decode succeeded with [d], run while the wall clock and
    the tick count read [w]. *)
Definition ok_env (c : imu_data_t * (Z * Z)) : cycle_env :=
  {| env_read_all := ReadOk (fst c);
     env_clock_us := fst (snd c);
     env_tick_count := snd (snd c) |}.

(** A cycle whose decode failed with [code]. *)
Definition err_env (c : Z * (Z * Z)) : cycle_env :=
  {| env_read_all := ReadErr (fst c);
     env_clock_us := fst (snd c);
     env_tick_count := snd (snd c) |}.

(** ** The loop's window on its own

    What the successful branch of [imu_task_cycle] does to
    [stats_window_start], [batch_count] and [sample_accumulator], and the
    rates it logs, with the store, the wake-up time and the other calls left
    out: the same [uint64_t] difference, the same 32-bit counters, the same
    float operations. [batches] and [items] are the counts before their
    32-bit wrap. *)
Definition imu_window_rates (batches items elapsed : Z) : throughput_t :=
  let elapsed_seconds := F32.div (F32.of_Z elapsed) F32.f1000000 in
  {| throughput_batches_per_sec := F32.div (F32.of_Z (wrap32 batches)) elapsed_seconds;
     throughput_samples_per_sec := F32.div (F32.of_Z (wrap32 items)) elapsed_seconds |}.

Fixpoint imu_window_trace (window_start batches items : Z) (ds : list imu_data_t)
  : list (option throughput_t) * (Z * Z * Z) :=
  match ds with
  | [] => ([], (window_start, wrap32 batches, wrap32 items))
  | d :: ds' =>
      let batches' := batches + 1 in
      let items' := items + samples_read (stats d) in
      let elapsed := u64_sub (timestamp_us d) window_start in
      if decide (1000000 <= elapsed) then
        let '(closes, w) := imu_window_trace (timestamp_us d) 0 0 ds' in
        (Some (imu_window_rates batches' items' elapsed) :: closes, w)
      else
        let '(closes, w) := imu_window_trace window_start batches' items' ds' in
        (None :: closes, w)
  end.

(** ** The rolling window, in the specification's words

    The window accumulates, per successful cycle, one batch and the cycle's
    drained items. It closes when the elapsed time since the window start,
    the sample's timestamp minus the window start, reaches 1,000,000
    microseconds: the rates are the accumulated counts divided by the elapsed
    seconds, the elapsed microseconds over 1,000,000, in IEEE 754 binary32
    arithmetic; the window start becomes the closing sample's timestamp and
    the accumulators restart from zero. The integers are unbounded and the
    float operations are those of the library, not the task's. *)
Definition spec_window_rates (batches items elapsed : Z) : throughput_t :=
  let to_binary32 z := binary_normalize 24 128 z 0 false in
  let elapsed_seconds := SFdiv 24 128 (to_binary32 elapsed) (to_binary32 1000000) in
  {| throughput_batches_per_sec := SFdiv 24 128 (to_binary32 batches) elapsed_seconds;
     throughput_samples_per_sec := SFdiv 24 128 (to_binary32 items) elapsed_seconds |}.

Fixpoint spec_window_trace (window_start batches items : Z) (ds : list imu_data_t)
  : list (option throughput_t) * (Z * Z * Z) :=
  match ds with
  | [] => ([], (window_start, batches, items))
  | d :: ds' =>
      let batches' := batches + 1 in
      let items' := items + samples_read (stats d) in
      let elapsed := timestamp_us d - window_start in
      if decide (1000000 <= elapsed) then
        let '(closes, w) := spec_window_trace (timestamp_us d) 0 0 ds' in
        (Some (spec_window_rates batches' items' elapsed) :: closes, w)
      else
        let '(closes, w) := spec_window_trace window_start batches' items' ds' in
        (None :: closes, w)
  end.

(** A trace fits the window when no sample is stamped before the window
    start current at its cycle, every timestamp fits a [uint64_t], and the
    batches and items accumulated in a window stay below 2^32. *)
Fixpoint spec_window_fits (window_start batches items : Z) (ds : list imu_data_t)
  : Prop :=
  match ds with
  | [] => True
  | d :: ds' =>
      window_start <= timestamp_us d < 2 ^ 64 /\
      0 <= samples_read (stats d) /\
      batches + 1 < 2 ^ 32 /\
      items + samples_read (stats d) < 2 ^ 32 /\
      if decide (1000000 <= timestamp_us d - window_start)
      then spec_window_fits (timestamp_us d) 0 0 ds'
      else spec_window_fits window_start (batches + 1)
             (items + samples_read (stats d)) ds'
  end.

(** The values of the microsecond clock: [esp_timer_get_time] counts the
    microseconds since boot in an [int64_t]. *)
Definition clock_value (t : Z) : Prop := 0 <= t < 2 ^ 63.

(** The synthetic trace of the statistics-window test: cycle [i] carries a
    sample stamped [i] spacings of 100,000 microseconds after the window
    start and reports 100 items drained; the other fields are those of
    [d0]. *)
Definition synthetic_cycle (d0 : imu_data_t) (window_start : Z) (i : nat)
  : imu_data_t :=
  {| timestamp_us := window_start + 100000 * Z.of_nat i;
     accelerometer := accelerometer d0;
     stats := {| fifo_level := fifo_level (stats d0);
                 samples_read := 100;
                 odr_hz := odr_hz (stats d0);
                 batch_interval_us := batch_interval_us (stats d0);
                 samples_per_second := samples_per_second (stats d0) |} |}.

Definition synthetic_trace (d0 : imu_data_t) (window_start : Z)
    (wall : nat -> Z * Z) : list (imu_data_t * (Z * Z)) :=
  map (fun i => (synthetic_cycle d0 window_start i, wall i)) (seq 1 10).

(** ** Concrete inputs *)

(** A valid reading of 1 g along z, stamped [ts], out of a batch of [items]
    drained entries. *)
Definition reading (ts items : Z) : imu_data_t :=
  {| timestamp_us := ts;
     accelerometer := {| x_g := S754_zero false; y_g := S754_zero false;
                         z_g := F32.of_Z 1; magnitude_g := F32.of_Z 1;
                         valid := true |};
     stats := {| fifo_level := 0; samples_read := items;
                 odr_hz := F32.of_Z 26667;
                 batch_interval_us := S754_zero false;
                 samples_per_second := S754_zero false |} |}.

(** The locals of a task whose window started at [start], over an empty
    store of [IMU_MANAGER_MAX_SAMPLES] slots. *)
Definition fresh_state (start : Z) : imu_task_state :=
  {| last_wake_time := 0;
     batch_count := 0;
     sample_accumulator := 0;
     stats_window_start := start;
     buffer := data_buffer_init IMU_MANAGER_MAX_SAMPLES |}.

(** ** What a run of [imu_task] decoded and pushed *)

(** The samples of the cycles whose decode succeeded, in order. *)
Definition decoded (envs : list cycle_env) : list imu_data_t :=
  omap (fun env => match env_read_all env with
                   | ReadOk d => Some d
                   | ReadErr _ => None
                   end) envs.

(** The samples handed to [data_buffer_add] by a list of calls, in order. *)
Definition buffer_adds (evs : list event) : list imu_data_t :=
  omap (fun e => match e with
                 | Ev_data_buffer_add d => Some d
                 | _ => None
                 end) evs.

(** Sample timestamps that never run backwards from [lo] on, as a monotonic
    clock stamps them, and fit a [uint64_t]. *)
Fixpoint monotone_from (lo : Z) (ds : list imu_data_t) : Prop :=
  match ds with
  | [] => True
  | d :: ds' =>
      lo <= timestamp_us d < 2 ^ 64 /\ monotone_from (timestamp_us d) ds'
  end.

(** The newest timestamp of a trace, [lo] when it is empty. *)
Definition newest_timestamp (lo : Z) (ds : list imu_data_t) : Z :=
  List.last (map timestamp_us ds) lo.

(** ** The loop of [data_processor_task] *)

(** One iteration, given what [data_buffer_get_latest(&data)] handed back
    ([None] for any result but [ESP_OK]). *)
Definition data_processor_cycle (hz : Z) (processed_count : Z)
    (latest : option sample_t) : Z * list event :=
  match latest with
  | Some _ =>
      let count := u32_add processed_count 1 in
      (count,
       (if count mod 1000 =? 0 then [Ev_log_info] else [])
         ++ [Ev_vTaskDelay (pdMS_TO_TICKS hz 100)])
  | None =>
      (processed_count,
       [Ev_vTaskDelay (pdMS_TO_TICKS hz 10); Ev_vTaskDelay (pdMS_TO_TICKS hz 100)])
  end.

(** The iterations of the loop over what the reads handed back; the calls of
    all iterations, in order. *)
Fixpoint data_processor_run (hz : Z) (processed_count : Z)
    (reads : list (option sample_t)) : Z * list event :=
  match reads with
  | [] => (processed_count, [])
  | latest :: reads' =>
      let '(count, evs) := data_processor_cycle hz processed_count latest in
      let '(count', evs') := data_processor_run hz count reads' in
      (count', evs ++ evs')
  end.

(** The reads that handed back a sample. *)
Definition reads_ok (reads : list (option sample_t)) : Z :=
  Z.of_nat (length (omap id reads)).

Definition log_infos (evs : list event) : Z :=
  Z.of_nat (length (List.filter (fun e => match e with Ev_log_info => true | _ => false end) evs)).

(** The ticks a list of calls asks [vTaskDelay] to sleep, in total. *)
Fixpoint delay_ticks (evs : list event) : Z :=
  match evs with
  | [] => 0
  | Ev_vTaskDelay ticks :: evs' => ticks + delay_ticks evs'
  | _ :: evs' => delay_ticks evs'
  end.

(** ** WiFi station bring-up: [event_handler] and [wifi_init_sta] *)

Definition WIFI_MAXIMUM_RETRY : Z := 5.
Definition WIFI_CONNECTED_BIT : Z := 1.   (* BIT0 *)
Definition WIFI_FAIL_BIT : Z := 2.        (* BIT1 *)

(** The events the handler tells apart: an event base with one of its
    identifiers; every other identifier or base falls through all three
    branches. *)
Inductive wifi_event_t : Type :=
  | WIFI_EVENT_STA_START
  | WIFI_EVENT_STA_DISCONNECTED
  | WIFI_EVENT_other (event_id : Z).

Inductive ip_event_t : Type :=
  | IP_EVENT_STA_GOT_IP
  | IP_EVENT_other (event_id : Z).

Inductive esp_event_t : Type :=
  | WIFI_EVENT (event_id : wifi_event_t)
  | IP_EVENT (event_id : ip_event_t)
  | OTHER_EVENT.

(** The calls the handler makes. *)
Inductive wifi_call : Type :=
  | Call_esp_wifi_connect
  | Call_log_retry
  | Call_log_connect_fail
  | Call_log_got_ip
  | Call_xEventGroupSetBits (bits : Z).

(** The two statics: [s_retry_num] and the bits of [s_wifi_event_group]. *)
Record wifi_state : Type := {
  s_retry_num : Z;           (* int *)
  s_wifi_event_group : Z     (* EventBits_t *)
}.

(** [s_retry_num = 0] and a freshly created event group. *)
Definition wifi_state_init : wifi_state :=
  {| s_retry_num := 0; s_wifi_event_group := 0 |}.

Definition event_handler (st : wifi_state) (ev : esp_event_t)
  : wifi_state * list wifi_call :=
  match ev with
  | WIFI_EVENT WIFI_EVENT_STA_START => (st, [Call_esp_wifi_connect])
  | WIFI_EVENT WIFI_EVENT_STA_DISCONNECTED =>
      if s_retry_num st <? WIFI_MAXIMUM_RETRY then
        ({| s_retry_num := s_retry_num st + 1;
            s_wifi_event_group := s_wifi_event_group st |},
         [Call_esp_wifi_connect; Call_log_retry; Call_log_connect_fail])
      else
        ({| s_retry_num := s_retry_num st;
            s_wifi_event_group := Z.lor (s_wifi_event_group st) WIFI_FAIL_BIT |},
         [Call_xEventGroupSetBits WIFI_FAIL_BIT; Call_log_connect_fail])
  | IP_EVENT IP_EVENT_STA_GOT_IP =>
      ({| s_retry_num := 0;
          s_wifi_event_group := Z.lor (s_wifi_event_group st) WIFI_CONNECTED_BIT |},
       [Call_log_got_ip; Call_xEventGroupSetBits WIFI_CONNECTED_BIT])
  | _ => (st, [])
  end.

(** The handler over the events the event loop delivers, in order. *)
Fixpoint event_handler_run (st : wifi_state) (evs : list esp_event_t)
  : wifi_state * list wifi_call :=
  match evs with
  | [] => (st, [])
  | ev :: evs' =>
      let '(st1, calls) := event_handler st ev in
      let '(st2, calls') := event_handler_run st1 evs' in
      (st2, calls ++ calls')
  end.

Definition connect_calls (calls : list wifi_call) : nat :=
  length (List.filter (fun c => match c with Call_esp_wifi_connect => true | _ => false end)
            calls).

Definition disconnects (evs : list esp_event_t) : nat :=
  length (List.filter (fun ev => match ev with
                                 | WIFI_EVENT WIFI_EVENT_STA_DISCONNECTED => true
                                 | _ => false
                                 end) evs).

(** What [wifi_init_sta] logs once [xEventGroupWaitBits] hands back
    [bits]. *)
Inductive wifi_outcome : Type :=
  | Wifi_connected
  | Wifi_failed
  | Wifi_unexpected.

Definition wifi_init_sta_outcome (bits : Z) : wifi_outcome :=
  if negb (Z.land bits WIFI_CONNECTED_BIT =? 0) then Wifi_connected
  else if negb (Z.land bits WIFI_FAIL_BIT =? 0) then Wifi_failed
  else Wifi_unexpected.

(** A trace that overflows the item counter within one window: 65,538
    cycles stamped 0, each reporting the 65,535 items a [uint16_t] holds,
    then one cycle stamped 1,000,000. *)
Definition overflow_trace : list (imu_data_t * (Z * Z)) :=
  replicate (Z.to_nat 65538) (reading 0 65535, (0, 0))
    ++ [(reading 1000000 0, (0, 0))].

(** * Properties *)

(** ** Machine arithmetic *)

Lemma wrap_range w x : 0 <= w -> in_range w (wrap w x).
Proof.
  intros Hw. unfold in_range, wrap. apply Z.mod_pos_bound.
  apply Z.pow_pos_nonneg; lia.
Qed.

Lemma wrap_small w x : in_range w x -> wrap w x = x.
Proof. unfold in_range, wrap. intros H. by apply Z.mod_small. Qed.

Lemma wrap32_add_l a b : wrap32 (wrap32 a + b) = wrap32 (a + b).
Proof. unfold wrap32, wrap. by rewrite Z.add_mod_idemp_l. Qed.

Lemma u32_add_wrap a b : u32_add (wrap32 a) b = wrap32 (a + b).
Proof. apply wrap32_add_l. Qed.

Lemma u64_sub_add_l s k : in_range 64 k -> u64_sub (s + k) s = k.
Proof.
  intros Hk. unfold u64_sub, wrap64.
  replace (s + k - s) with k by lia. by apply wrap_small.
Qed.

(** ** The loop *)

Section TaskFacts.

Variable hz : Z.

Lemma imu_task_body_window st env :
  window_of (fst (imu_task_body hz st env))
  = window_of (fst (imu_task_cycle hz st (env_read_all env))).
Proof.
  unfold imu_task_body. by destruct (imu_task_cycle hz st (env_read_all env)).
Qed.

Lemma imu_task_body_buffer st env :
  buffer (fst (imu_task_body hz st env))
  = buffer (fst (imu_task_cycle hz st (env_read_all env))).
Proof.
  unfold imu_task_body. by destruct (imu_task_cycle hz st (env_read_all env)).
Qed.

Lemma imu_task_body_events st env :
  snd (imu_task_body hz st env)
  = snd (imu_task_cycle hz st (env_read_all env))
      ++ [Ev_vTaskDelayUntil (tick_delay hz)].
Proof.
  unfold imu_task_body. by destruct (imu_task_cycle hz st (env_read_all env)).
Qed.

Lemma stats_line_app_delay evs p :
  stats_line (evs ++ [Ev_vTaskDelayUntil p]) = stats_line evs.
Proof.
  induction evs as [|e evs IH]; [done|]. by destruct e; cbn.
Qed.

(** One successful cycle, on the window: it closes exactly when the wrapped
    difference reaches 1,000,000. *)
Lemma imu_task_cycle_ok st d :
  let count := u32_add (batch_count st) 1 in
  let items := u32_add (sample_accumulator st) (samples_read (stats d)) in
  let elapsed := u64_sub (timestamp_us d) (stats_window_start st) in
  let '(st', evs) := imu_task_cycle hz st (ReadOk d) in
  buffer st' = data_buffer_add (buffer st) d /\
  last_wake_time st' = last_wake_time st /\
  if decide (1000000 <= elapsed) then
    window_of st' = (timestamp_us d, 0, 0) /\
    evs = [Ev_data_buffer_add d; log_stats count items elapsed d]
  else
    window_of st' = (stats_window_start st, count, items) /\
    evs = [Ev_data_buffer_add d].
Proof.
  cbn. case_decide as Hc.
  - apply Z.leb_le in Hc. by rewrite Hc.
  - apply Z.leb_nle in Hc. by rewrite Hc.
Qed.

Lemma stats_line_log_stats d b i elapsed :
  stats_line [Ev_data_buffer_add d;
              log_stats (wrap32 b) (wrap32 i) elapsed d]
  = Some (imu_window_rates b i elapsed).
Proof. reflexivity. Qed.

(** The loop over successful cycles computes the window of the
    specification, from any state whose counters hold [b] and [i]. *)
Lemma imu_task_run_window cs : forall st b i,
  batch_count st = wrap32 b ->
  sample_accumulator st = wrap32 i ->
  map stats_line (snd (imu_task_run hz st (map ok_env cs)))
  = fst (imu_window_trace (stats_window_start st) b i (map fst cs)) /\
  window_of (fst (imu_task_run hz st (map ok_env cs)))
  = snd (imu_window_trace (stats_window_start st) b i (map fst cs)).
Proof.
  induction cs as [|[d w] cs IH]; intros st b i Hb Hi.
  - cbn. unfold window_of. by rewrite Hb, Hi.
  - cbn [map imu_task_run imu_window_trace fst].
    pose proof (imu_task_body_window st (ok_env (d, w))) as Hw.
    pose proof (imu_task_body_events st (ok_env (d, w))) as He.
    pose proof (imu_task_cycle_ok st d) as Hc.
    cbn [ok_env env_read_all fst] in Hw, He.
    destruct (imu_task_body hz st (ok_env (d, w))) as [st1 evs].
    destruct (imu_task_cycle hz st (ReadOk d)) as [st1' evs'].
    cbn [fst snd] in Hw, He, Hc. destruct Hc as (_ & _ & Hc).
    rewrite Hb, Hi, !u32_add_wrap in Hc.
    case_decide as Hclose; destruct Hc as [Hwin ->].
    + rewrite Hwin in Hw. injection Hw as Hs Hb1 Hi1.
      specialize (IH st1 0 0 Hb1 Hi1). rewrite Hs in IH.
      destruct (imu_task_run hz st1 (map ok_env cs)) as [st2 log].
      destruct (imu_window_trace (timestamp_us d) 0 0 (map fst cs)) as [closes win].
      cbn [fst snd map] in *. destruct IH as [-> ->].
      by rewrite He, stats_line_app_delay, stats_line_log_stats.
    + rewrite Hwin in Hw. injection Hw as Hs Hb1 Hi1.
      specialize (IH st1 _ _ Hb1 Hi1). rewrite Hs in IH.
      destruct (imu_task_run hz st1 (map ok_env cs)) as [st2 log].
      destruct (imu_window_trace (stats_window_start st) (b + 1)
                  (i + samples_read (stats d)) (map fst cs)) as [closes win].
      cbn [fst snd map] in *. destruct IH as [-> ->].
      by rewrite He.
Qed.

(** A running task's steps are the loop's iterations. *)
Lemma imu_task_steps_running envs : forall st,
  imu_task_steps hz (TaskRunning st) envs
  = (TaskRunning (fst (imu_task_run hz st envs)), snd (imu_task_run hz st envs)).
Proof.
  induction envs as [|env envs IH]; intros st; [done|].
  cbn [imu_task_steps imu_task_step imu_task_run].
  destruct (imu_task_body hz st env) as [st1 evs]. rewrite IH.
  by destruct (imu_task_run hz st1 envs).
Qed.

(** One failed cycle leaves the locals and the store alone. *)
Lemma imu_task_cycle_err st code :
  imu_task_cycle hz st (ReadErr code)
  = (st, [Ev_log_warn; Ev_vTaskDelay (pdMS_TO_TICKS hz 5)]).
Proof. reflexivity. Qed.

(** No cycle calls [vTaskDelayUntil] by itself. *)
Lemma imu_task_cycle_no_delay_until st r :
  List.filter is_delay_until (snd (imu_task_cycle hz st r)) = [].
Proof.
  destruct r as [d|code]; [|done].
  cbn. by destruct (1000000 <=? _).
Qed.

Lemma tick_delay_pos : 1 <= tick_delay hz.
Proof.
  unfold tick_delay. destruct (0 <? frequency hz) eqn:E; [|lia].
  apply Z.ltb_lt in E. lia.
Qed.

End TaskFacts.

(** The floats 10.0 and 1000.0 are exact: mantissa times 2^exponent. *)
Example f32_10_exact :
  F32.of_Z 10 = S754_finite false 10485760 (-20) /\ 10485760 = 10 * 2 ^ 20.
Proof. split; reflexivity. Qed.

Example f32_1000_exact :
  F32.of_Z 1000 = S754_finite false 16384000 (-14) /\ 16384000 = 1000 * 2 ^ 14.
Proof. split; reflexivity. Qed.

Lemma imu_window_trace_open start b i d ds :
  u64_sub (timestamp_us d) start < 1000000 ->
  fst (imu_window_trace start b i (d :: ds))
  = None :: fst (imu_window_trace start (b + 1) (i + samples_read (stats d)) ds).
Proof.
  intros H. cbn [imu_window_trace]. case_decide; [lia|].
  by destruct (imu_window_trace start (b + 1) (i + samples_read (stats d)) ds).
Qed.

Lemma imu_window_trace_close start b i d ds :
  1000000 <= u64_sub (timestamp_us d) start ->
  fst (imu_window_trace start b i (d :: ds))
  = Some (imu_window_rates (b + 1) (i + samples_read (stats d))
            (u64_sub (timestamp_us d) start))
    :: fst (imu_window_trace (timestamp_us d) 0 0 ds).
Proof.
  intros H. cbn [imu_window_trace]. case_decide; [|lia].
  by destruct (imu_window_trace (timestamp_us d) 0 0 ds).
Qed.

Lemma imu_window_trace_synthetic d0 start wall :
  in_range 64 start -> start + 1000000 < 2 ^ 64 ->
  fst (imu_window_trace start 0 0 (map fst (synthetic_trace d0 start wall)))
  = replicate 9 None
    ++ [Some {| throughput_batches_per_sec := F32.of_Z 10;
                throughput_samples_per_sec := F32.of_Z 1000 |}].
Proof.
  intros [Hs0 Hs1] Hs2. unfold synthetic_trace.
  cbn [seq map fst].
  do 9 (rewrite imu_window_trace_open
          by (cbn [synthetic_cycle timestamp_us];
              rewrite u64_sub_add_l by (unfold in_range; lia); lia)).
  rewrite imu_window_trace_close
    by (cbn [synthetic_cycle timestamp_us];
        rewrite u64_sub_add_l by (unfold in_range; lia); lia).
  cbn [synthetic_cycle timestamp_us stats samples_read imu_window_trace fst
       replicate app].
  rewrite u64_sub_add_l by (unfold in_range; lia).
  reflexivity.
Qed.

(** Where a trace fits the window, the loop's 32-bit and 64-bit arithmetic
    is the specification's plain arithmetic. *)
Lemma imu_window_rates_spec b i elapsed :
  in_range 32 b -> in_range 32 i ->
  imu_window_rates b i elapsed = spec_window_rates b i elapsed.
Proof.
  intros Hb Hi. unfold imu_window_rates, spec_window_rates.
  rewrite (wrap_small 32 b Hb : wrap32 b = b).
  rewrite (wrap_small 32 i Hi : wrap32 i = i). reflexivity.
Qed.

Lemma imu_window_trace_spec ds : forall start b i,
  0 <= start -> in_range 32 b -> in_range 32 i ->
  spec_window_fits start b i ds ->
  imu_window_trace start b i ds = spec_window_trace start b i ds.
Proof.
  induction ds as [|d ds IH]; intros start b i Hs Hb Hi Hfit.
  - cbn. by rewrite (wrap_small 32 b Hb : wrap32 b = b),
                    (wrap_small 32 i Hi : wrap32 i = i).
  - destruct Hfit as (Hts & Hsr & Hb1 & Hi1 & Hfit).
    unfold in_range in Hb, Hi.
    cbn [imu_window_trace spec_window_trace].
    assert (He : u64_sub (timestamp_us d) start = timestamp_us d - start).
    { apply wrap_small. unfold in_range. lia. }
    rewrite He.
    case_decide as Hclose.
    + rewrite IH; [|lia|unfold in_range; lia|unfold in_range; lia|done].
      rewrite imu_window_rates_spec by (unfold in_range; lia). done.
    + rewrite IH; [done|lia|unfold in_range; lia|unfold in_range; lia|done].
Qed.

Lemma map_replicate {A B : Type} (f : A -> B) (n : nat) (x : A) :
  map f (replicate n x) = replicate n (f x).
Proof. induction n as [|n IH]; cbn; [done|]. by rewrite IH. Qed.

(** A run of [n] cycles that all leave the window open. *)
Lemma imu_window_trace_open_run d rest start (n : nat) : forall b i,
  u64_sub (timestamp_us d) start < 1000000 ->
  fst (imu_window_trace start b i (replicate n d ++ rest))
  = replicate n None
    ++ fst (imu_window_trace start (b + Z.of_nat n)
              (i + Z.of_nat n * samples_read (stats d)) rest).
Proof.
  induction n as [|n IH]; intros b i Hopen.
  - cbn [replicate app Z.of_nat]. by rewrite Z.mul_0_l, !Z.add_0_r.
  - cbn [replicate app]. rewrite imu_window_trace_open, IH by done.
    replace (b + 1 + Z.of_nat n) with (b + Z.of_nat (S n)) by lia.
    replace (i + samples_read (stats d) + Z.of_nat n * samples_read (stats d))
      with (i + Z.of_nat (S n) * samples_read (stats d)) by lia.
    done.
Qed.

Lemma spec_window_trace_open_run d rest start (n : nat) : forall b i,
  timestamp_us d - start < 1000000 ->
  fst (spec_window_trace start b i (replicate n d ++ rest))
  = replicate n None
    ++ fst (spec_window_trace start (b + Z.of_nat n)
              (i + Z.of_nat n * samples_read (stats d)) rest).
Proof.
  induction n as [|n IH]; intros b i Hopen.
  - cbn [replicate app Z.of_nat]. by rewrite Z.mul_0_l, !Z.add_0_r.
  - cbn [replicate app spec_window_trace]. case_decide; [lia|].
    specialize (IH (b + 1) (i + samples_read (stats d)) Hopen).
    destruct (spec_window_trace start (b + 1) (i + samples_read (stats d))
                (replicate n d ++ rest)) as [closes w].
    cbn [fst] in *. rewrite IH.
    replace (b + 1 + Z.of_nat n) with (b + Z.of_nat (S n)) by lia.
    replace (i + samples_read (stats d) + Z.of_nat n * samples_read (stats d))
      with (i + Z.of_nat (S n) * samples_read (stats d)) by lia.
    done.
Qed.

(** What the started task logs over successful cycles, through the loop's
    window. *)
Lemma imu_task_started_window hz tick0 clock0 buf cs :
  exists st0 st log,
    fst (imu_task_start true tick0 clock0 buf) = TaskRunning st0 /\
    imu_task_steps hz (TaskRunning st0) (map ok_env cs) = (TaskRunning st, log) /\
    map stats_line log
    = fst (imu_window_trace (wrap64 clock0) 0 0 (map fst cs)) /\
    window_of st = snd (imu_window_trace (wrap64 clock0) 0 0 (map fst cs)).
Proof.
  eexists _, _, _. split; [reflexivity|].
  split; [apply imu_task_steps_running|].
  match goal with
  | |- context [imu_task_run hz ?s _] =>
      exact (imu_task_run_window hz cs s 0 0 eq_refl eq_refl)
  end.
Qed.

(** C1, as stated, fails twice. (a) A task started at wall clock 123 whose
    first sample is stamped 5: the timestamp minus the window start is -118,
    below 1,000,000, yet the [uint64_t] difference wraps and the loop closes
    the window on that cycle, where the window of the specification stays
    open. (b) Over [overflow_trace] the window closes on the last cycle
    with 65,538 * 65,535 = 4,294,967,296 + 65,534 items accumulated, and the
    loop's 32-bit accumulator makes the logged rate that of 65,534 items. *)
Lemma imu_task_statistics_window_counterexample :
  (timestamp_us (reading 5 1) - wrap64 123 < 1000000 /\
   map stats_line
     (snd (imu_task_steps 1000
             (fst (imu_task_start true 0 123 (data_buffer_init IMU_MANAGER_MAX_SAMPLES)))
             (map ok_env [(reading 5 1, (0, 0))])))
   = [Some (spec_window_rates 1 1 (5 - 123 + 2 ^ 64))] /\
   fst (spec_window_trace (wrap64 123) 0 0 (map fst [(reading 5 1, (0, 0))]))
   = [None]) /\
  (last (map stats_line
           (snd (imu_task_steps 1000
                   (fst (imu_task_start true 0 0
                           (data_buffer_init IMU_MANAGER_MAX_SAMPLES)))
                   (map ok_env overflow_trace))))
   = Some (Some (spec_window_rates 65539 65534 1000000)) /\
   last (fst (spec_window_trace (wrap64 0) 0 0 (map fst overflow_trace)))
   = Some (Some (spec_window_rates 65539 (65538 * 65535) 1000000)) /\
   65538 * 65535 = 2 ^ 32 + 65534 /\
   spec_window_rates 65539 65534 1000000
   <> spec_window_rates 65539 (65538 * 65535) 1000000).
Proof.
  split.
  - split; [by vm_compute|]. split; by vm_compute.
  - assert (Hmap : map fst overflow_trace
                   = replicate (Z.to_nat 65538) (reading 0 65535)
                     ++ [reading 1000000 0]).
    { unfold overflow_trace. by rewrite map_app, map_replicate. }
    split; [|split; [|split; [reflexivity|]]].
    + destruct (imu_task_started_window 1000 0 0
                  (data_buffer_init IMU_MANAGER_MAX_SAMPLES) overflow_trace)
        as (st0 & st & log & Hst0 & Hrun & Hlog & _).
      rewrite Hst0, Hrun. cbn [snd]. rewrite Hlog, Hmap.
      rewrite imu_window_trace_open_run by (by vm_compute).
      rewrite Z2Nat.id by lia.
      match goal with
      | |- last (_ ++ ?t) = _ =>
          replace t with [Some (spec_window_rates 65539 65534 1000000)]
            by (vm_compute; reflexivity)
      end.
      apply last_snoc.
    + rewrite Hmap.
      rewrite spec_window_trace_open_run by (by vm_compute).
      rewrite Z2Nat.id by lia.
      match goal with
      | |- last (_ ++ ?t) = _ =>
          replace t with [Some (spec_window_rates 65539 (65538 * 65535) 1000000)]
            by (vm_compute; reflexivity)
      end.
      apply last_snoc.
    + vm_compute. congruence.
Qed.

(** C1, amended. For every sequence of successful acquisition cycles that
    fits the window (no sample stamped before the window start current at
    its cycle, the batches and items accumulated in a window below 2^32),
    the started task logs, cycle by cycle, the lines of the rolling window
    of the specification: the window closes exactly on the cycles whose
    sample timestamp minus [stats_window_start] is at least 1,000,000; the
    closing line's samples/s is the accumulated drained-item count divided
    by the elapsed seconds and its batches/s the batch count divided by the
    elapsed seconds, in binary32; after a close the window starts at the
    closing sample's timestamp with both accumulators at zero. *)
Theorem imu_task_statistics_window (hz tick0 clock0 : Z) (buf : data_buffer_t)
    (cs : list (imu_data_t * (Z * Z))) :
  spec_window_fits (wrap64 clock0) 0 0 (map fst cs) ->
  exists st0 st log,
    fst (imu_task_start true tick0 clock0 buf) = TaskRunning st0 /\
    imu_task_steps hz (TaskRunning st0) (map ok_env cs) = (TaskRunning st, log) /\
    map stats_line log
    = fst (spec_window_trace (wrap64 clock0) 0 0 (map fst cs)) /\
    window_of st = snd (spec_window_trace (wrap64 clock0) 0 0 (map fst cs)).
Proof.
  intros Hfit.
  destruct (imu_task_started_window hz tick0 clock0 buf cs)
    as (st0 & st & log & Hst0 & Hrun & Hlog & Hwin).
  exists st0, st, log. split; [done|]. split; [done|].
  rewrite Hlog, Hwin, imu_window_trace_spec; [done| | | |done].
  - apply (wrap_range 64). lia.
  - unfold in_range. lia.
  - unfold in_range. lia.
Qed.

Lemma imu_task_statistics_window_witness :
  spec_window_fits (wrap64 0) 0 0
    (map fst [(reading 400000 10, (0, 0)); (reading 1200000 20, (1, 1));
              (reading 1500000 30, (2, 2))]) /\
  exists st0 st log,
    fst (imu_task_start true 0 0 (data_buffer_init IMU_MANAGER_MAX_SAMPLES))
    = TaskRunning st0 /\
    imu_task_steps 1000 (TaskRunning st0)
      (map ok_env [(reading 400000 10, (0, 0)); (reading 1200000 20, (1, 1));
                   (reading 1500000 30, (2, 2))])
    = (TaskRunning st, log) /\
    map stats_line log
    = fst (spec_window_trace (wrap64 0) 0 0
             (map fst [(reading 400000 10, (0, 0)); (reading 1200000 20, (1, 1));
                       (reading 1500000 30, (2, 2))])) /\
    window_of st
    = snd (spec_window_trace (wrap64 0) 0 0
             (map fst [(reading 400000 10, (0, 0)); (reading 1200000 20, (1, 1));
                       (reading 1500000 30, (2, 2))])).
Proof.
  assert (Hfit : spec_window_fits (wrap64 0) 0 0
                   (map fst [(reading 400000 10, (0, 0)); (reading 1200000 20, (1, 1));
                             (reading 1500000 30, (2, 2))])).
  { change (wrap64 0) with 0. cbn. repeat (split; [lia|]). done. }
  refine (conj Hfit _).
  exact (imu_task_statistics_window 1000 0 0 _ _ Hfit).
Defined.

(** C2. For the synthetic trace of 10 successful cycles whose sample
    timestamps are spaced 100,000 microseconds apart, the first one spacing
    after the window start, each reporting 100 items drained, the window
    stays open for nine cycles and closes on the 10th, whose statistics line
    carries 1000.0 samples/s and 10.0 batches/s. *)
Theorem imu_task_synthetic_trace (hz tick0 clock0 : Z) (buf : data_buffer_t)
    (d0 : imu_data_t) (wall : nat -> Z * Z) :
  0 <= clock0 -> clock0 + 1000000 < 2 ^ 64 ->
  exists st0 st log,
    fst (imu_task_start true tick0 clock0 buf) = TaskRunning st0 /\
    imu_task_steps hz (TaskRunning st0)
      (map ok_env (synthetic_trace d0 (stats_window_start st0) wall))
    = (TaskRunning st, log) /\
    map stats_line log
    = replicate 9 None
      ++ [Some {| throughput_batches_per_sec := F32.of_Z 10;
                  throughput_samples_per_sec := F32.of_Z 1000 |}].
Proof.
  intros H0 H1. eexists _, _, _. split; [reflexivity|].
  split; [apply imu_task_steps_running|].
  cbn [stats_window_start].
  assert (Hr : in_range 64 clock0) by (unfold in_range; lia).
  rewrite (wrap_small 64 clock0 Hr : wrap64 clock0 = clock0).
  match goal with
  | |- context [imu_task_run hz ?s (map ok_env ?cs)] =>
      destruct (imu_task_run_window hz cs s 0 0 eq_refl eq_refl) as [-> _]
  end.
  cbn [stats_window_start]. by apply imu_window_trace_synthetic.
Qed.

Lemma imu_task_synthetic_trace_witness :
  0 <= 0 /\ 0 + 1000000 < 2 ^ 64 /\
  exists st0 st log,
    fst (imu_task_start true 0 0 (data_buffer_init IMU_MANAGER_MAX_SAMPLES))
    = TaskRunning st0 /\
    imu_task_steps 1000 (TaskRunning st0)
      (map ok_env
         (synthetic_trace (reading 0 0) (stats_window_start st0)
            (fun _ => (0, 0))))
    = (TaskRunning st, log) /\
    map stats_line log
    = replicate 9 None
      ++ [Some {| throughput_batches_per_sec := F32.of_Z 10;
                  throughput_samples_per_sec := F32.of_Z 1000 |}].
Proof.
  assert (H0 : 0 <= 0) by lia.
  assert (H1 : 0 + 1000000 < 2 ^ 64) by lia.
  refine (conj H0 (conj H1 _)).
  exact (imu_task_synthetic_trace 1000 0 0
           (data_buffer_init IMU_MANAGER_MAX_SAMPLES) _ _ H0 H1).
Defined.

(** C3. Every acquisition cycle whose decode fails pushes nothing into the
    store and leaves [batch_count], [sample_accumulator] and
    [stats_window_start] as they were: after any run of consecutive
    failures (three, in particular) the store, with its sequence number and
    contents, is the one before the first failure, no iteration called
    [data_buffer_add], and the task is still running. *)
Theorem imu_task_decode_failures (hz : Z) (cs : list (Z * (Z * Z))) :
  forall st, exists st' log,
    imu_task_steps hz (TaskRunning st) (map err_env cs) = (TaskRunning st', log) /\
    buffer st' = buffer st /\
    window_of st' = window_of st /\
    length log = length cs /\
    Forall (fun evs => List.filter is_buffer_add evs = []) log.
Proof.
  induction cs as [|[code w] cs IH]; intros st.
  - by exists st, [].
  - cbn [map imu_task_steps imu_task_step].
    unfold imu_task_body. cbn [err_env env_read_all fst].
    rewrite imu_task_cycle_err.
    match goal with
    | |- context [imu_task_steps hz (TaskRunning ?s) _] =>
        destruct (IH s) as (st' & log & -> & Hbuf & Hwin & Hlen & Hlog)
    end.
    eexists _, _. split; [reflexivity|].
    cbn in Hbuf, Hwin |- *. repeat split; try done.
    + by rewrite Hlen.
    + by constructor.
Qed.

(** C10. The period handed to [vTaskDelayUntil] is [tick_delay], which is
    [frequency] when [frequency > 0] and 1 otherwise, hence at least one
    tick whatever the tick rate; and every loop iteration, successful or
    failed, calls [vTaskDelayUntil] exactly once, with that period. *)
Theorem imu_task_delay_until_once (hz : Z) (envs : list cycle_env) :
  forall st,
    1 <= tick_delay hz /\
    tick_delay hz = (if decide (frequency hz > 0) then frequency hz else 1) /\
    length (snd (imu_task_run hz st envs)) = length envs /\
    Forall (fun evs =>
              List.filter is_delay_until evs = [Ev_vTaskDelayUntil (tick_delay hz)])
           (snd (imu_task_run hz st envs)).
Proof.
  intros st. split; [apply tick_delay_pos|]. split.
  { unfold tick_delay. case_decide as H.
    - by rewrite (proj2 (Z.ltb_lt 0 _)) by lia.
    - by rewrite (proj2 (Z.ltb_nlt 0 _)) by lia. }
  revert st. induction envs as [|env envs IH]; intros st; [by split|].
  cbn [imu_task_run].
  pose proof (imu_task_body_events hz st env) as He.
  destruct (imu_task_body hz st env) as [st1 evs]. cbn [snd] in He.
  destruct (IH st1) as [Hlen Hall].
  destruct (imu_task_run hz st1 envs) as [st2 log]. cbn [snd length] in *.
  split; [by rewrite Hlen|]. constructor; [|done].
  rewrite He, List.filter_app, imu_task_cycle_no_delay_until. reflexivity.
Qed.

(** C9. The window-close test computes [now - stats_window_start] in
    [uint64_t]: for any successful cycle whose sample timestamp is strictly
    below the current [stats_window_start], a value of the microsecond clock
    the task read it from, the difference wraps modulo 2^64 to
    [timestamp - stats_window_start + 2^64], which is at least 1,000,000, and
    the window closes on that very cycle: the statistics line is logged, the
    window restarts at the sample's timestamp and both accumulators are
    zero. *)
Theorem imu_task_window_wraps (hz : Z) (st : imu_task_state) (d : imu_data_t)
    (w : Z * Z) :
  clock_value (stats_window_start st) ->
  0 <= timestamp_us d ->
  timestamp_us d < stats_window_start st ->
  let elapsed := u64_sub (timestamp_us d) (stats_window_start st) in
  elapsed = timestamp_us d - stats_window_start st + 2 ^ 64 /\
  1000000 <= elapsed /\
  window_of (fst (imu_task_body hz st (ok_env (d, w)))) = (timestamp_us d, 0, 0) /\
  stats_line (snd (imu_task_body hz st (ok_env (d, w))))
  = Some (spec_window_rates (u32_add (batch_count st) 1)
            (u32_add (sample_accumulator st) (samples_read (stats d))) elapsed).
Proof.
  intros [Hs0 Hs1] Ht0 Hlt elapsed.
  assert (He : elapsed = timestamp_us d - stats_window_start st + 2 ^ 64).
  { unfold elapsed, u64_sub, wrap64, wrap.
    symmetry. apply (Z.mod_unique_pos _ _ (-1)); lia. }
  split; [done|]. split; [lia|].
  rewrite imu_task_body_window, imu_task_body_events, stats_line_app_delay.
  cbn [ok_env env_read_all fst].
  pose proof (imu_task_cycle_ok hz st d) as Hc.
  destruct (imu_task_cycle hz st (ReadOk d)) as [st' evs].
  destruct Hc as (_ & _ & Hc). fold elapsed in Hc.
  case_decide; [|lia]. destruct Hc as [Hwin ->]. cbn [fst snd].
  split; [done|]. reflexivity.
Qed.

Lemma imu_task_window_wraps_witness :
  clock_value (stats_window_start (fresh_state 123)) /\
  0 <= timestamp_us (reading 5 1) /\
  timestamp_us (reading 5 1) < stats_window_start (fresh_state 123) /\
  u64_sub (timestamp_us (reading 5 1)) (stats_window_start (fresh_state 123))
  = 5 - 123 + 2 ^ 64 /\
  window_of (fst (imu_task_body 1000 (fresh_state 123)
                    (ok_env (reading 5 1, (0, 0))))) = (5, 0, 0).
Proof.
  assert (H1 : clock_value (stats_window_start (fresh_state 123)))
    by (unfold clock_value; cbn; lia).
  assert (H2 : 0 <= timestamp_us (reading 5 1)) by (cbn; lia).
  assert (H3 : timestamp_us (reading 5 1) < stats_window_start (fresh_state 123))
    by (cbn; lia).
  refine (conj H1 (conj H2 (conj H3 _))).
  destruct (imu_task_window_wraps 1000 (fresh_state 123) (reading 5 1) (0, 0)
              H1 H2 H3) as (He & _ & Hclose & _).
  exact (conj He Hclose).
Defined.

(** C7, as stated, fails: the window start is first read from the wall
    clock, so the same one-sample trace, replayed by a task started at wall
    clock 0 and by one started at wall clock 500,000, closes its window in
    the first run and not in the second. *)
Lemma imu_task_statistics_clock_counterexample :
  map stats_line
    (snd (imu_task_steps 1000
            (fst (imu_task_start true 0 0 (data_buffer_init IMU_MANAGER_MAX_SAMPLES)))
            (map ok_env [(reading 1000000 100, (0, 0))])))
  = [Some (spec_window_rates 1 100 1000000)] /\
  map stats_line
    (snd (imu_task_steps 1000
            (fst (imu_task_start true 0 500000 (data_buffer_init IMU_MANAGER_MAX_SAMPLES)))
            (map ok_env [(reading 1000000 100, (0, 0))])))
  = [None] /\
  map stats_line
    (snd (imu_task_steps 1000
            (fst (imu_task_start true 0 0 (data_buffer_init IMU_MANAGER_MAX_SAMPLES)))
            (map ok_env [(reading 1000000 100, (0, 0))])))
  <> map stats_line
       (snd (imu_task_steps 1000
               (fst (imu_task_start true 0 500000 (data_buffer_init IMU_MANAGER_MAX_SAMPLES)))
               (map ok_env [(reading 1000000 100, (0, 0))]))).
Proof.
  repeat split; try (vm_compute; congruence).
Qed.

(** C7, amended. The statistics are a function of the sample trace and of
    the one wall-clock reading taken before the loop, which initialises
    [stats_window_start]: two runs started at the same reading over the
    same sequence of decoded samples log identical rates on identical
    cycles and end with identical windows, whatever the tick rate, the
    store, the tick counts and the wall clock read during the cycles. *)
Theorem imu_task_statistics_replay (hz hz' tick0 tick0' clock0 : Z)
    (buf buf' : data_buffer_t) (cs cs' : list (imu_data_t * (Z * Z))) :
  map fst cs = map fst cs' ->
  exists st log st' log',
    imu_task_steps hz (fst (imu_task_start true tick0 clock0 buf)) (map ok_env cs)
    = (TaskRunning st, log) /\
    imu_task_steps hz' (fst (imu_task_start true tick0' clock0 buf')) (map ok_env cs')
    = (TaskRunning st', log') /\
    map stats_line log = map stats_line log' /\
    window_of st = window_of st'.
Proof.
  intros Hsame. cbn [imu_task_start fst].
  rewrite !imu_task_steps_running.
  eexists _, _, _, _. split; [reflexivity|]. split; [reflexivity|].
  repeat match goal with
  | |- context [imu_task_run ?h ?s (map ok_env ?l)] =>
      let H1 := fresh in let H2 := fresh in
      destruct (imu_task_run_window h l s 0 0 eq_refl eq_refl) as [H1 H2];
      rewrite H1, H2; clear H1 H2
  end.
  cbn [stats_window_start]. by rewrite Hsame.
Qed.

Lemma imu_task_statistics_replay_witness :
  map fst [(reading 1000000 100, (0, 0)); (reading 2000001 7, (1, 1))]
  = map fst [(reading 1000000 100, (1000400, 3)); (reading 2000001 7, (2000900, 9))] /\
  exists st log st' log',
    imu_task_steps 1000
      (fst (imu_task_start true 0 0 (data_buffer_init IMU_MANAGER_MAX_SAMPLES)))
      (map ok_env [(reading 1000000 100, (0, 0)); (reading 2000001 7, (1, 1))])
    = (TaskRunning st, log) /\
    imu_task_steps 100
      (fst (imu_task_start true 40 0 (data_buffer_init 4)))
      (map ok_env [(reading 1000000 100, (1000400, 3)); (reading 2000001 7, (2000900, 9))])
    = (TaskRunning st', log') /\
    map stats_line log = map stats_line log' /\
    window_of st = window_of st'.
Proof.
  split; [reflexivity|].
  apply (imu_task_statistics_replay 1000 100 0 40 0); reflexivity.
Defined.

(** ** The store *)

Section StoreFacts.

Local Open Scope nat_scope.

(** Ring indices stay within one lap of the capacity. *)
Lemma ring_mod (x N : nat) :
  0 < N -> x < 2 * N -> x mod N = if decide (x < N) then x else x - N.
Proof.
  intros HN Hx. case_decide as Hlt; [by apply Nat.mod_small|].
  replace x with ((x - N) + 1 * N) at 1 by lia.
  rewrite Nat.Div0.mod_add. apply Nat.mod_small. lia.
Qed.

Lemma ring_back_0 (N c : nat) : c < N -> (c + N - 0) mod N = c.
Proof. intros Hc. rewrite ring_mod by lia. case_decide; lia. Qed.

Lemma ring_back_S (N c j : nat) :
  c < N -> S j < N ->
  ((c + 1) mod N + N - S j) mod N = (c + N - j) mod N /\
  (c + 1) mod N <> (c + N - j) mod N.
Proof.
  intros Hc Hj. rewrite (ring_mod (c + 1)) by lia.
  case_decide; rewrite !ring_mod by lia; repeat case_decide; lia.
Qed.

Lemma store_repr_init N : 0 < N -> store_repr N (data_buffer_init N) [].
Proof.
  intros HN. unfold store_repr, capacity. cbn.
  rewrite length_replicate. repeat split; [lia|].
  intros k Hk. unfold slot_back, capacity. cbn.
  rewrite length_replicate, lookup_replicate_2; [done|].
  apply Nat.mod_upper_bound. lia.
Qed.

Lemma store_repr_add N b h d :
  store_repr N b h ->
  store_repr N (data_buffer_add b d)
    (h ++ [{| sample_data := d; sample_seq := u32_add (sequence_id b) 1 |}]).
Proof.
  intros (Hcap & Hcur & Hback). unfold store_repr, capacity in *.
  assert (HN : 0 < N) by lia.
  cbn [data_buffer_add slots cursor]. unfold capacity.
  rewrite length_insert, Hcap.
  split; [done|]. split; [apply Nat.mod_upper_bound; lia|].
  intros k Hk. rewrite rev_app_distr. cbn [rev app].
  unfold slot_back, capacity. cbn [data_buffer_add slots cursor].
  unfold capacity. rewrite length_insert, Hcap.
  destruct k as [|j].
  - rewrite ring_back_0 by (apply Nat.mod_upper_bound; lia).
    rewrite list_lookup_insert_eq; [done|].
    rewrite Hcap. apply Nat.mod_upper_bound. lia.
  - destruct (ring_back_S N (cursor b) j Hcur Hk) as [-> Hne].
    rewrite list_lookup_insert_ne by done.
    transitivity (rev h !! j); [|done].
    rewrite <- (Hback j) by lia.
    unfold slot_back, capacity. by rewrite Hcap.
Qed.

Lemma store_repr_push_all N ds : forall b h,
  store_repr N b h ->
  store_repr N (push_all b ds) (h ++ tagged (sequence_id b) ds).
Proof.
  induction ds as [|d ds IH]; intros b h Hrepr.
  - cbn. by rewrite app_nil_r.
  - cbn [push_all fold_left tagged].
    change (h ++ ?x :: ?t) with (h ++ [x] ++ t). rewrite app_assoc.
    apply (IH (data_buffer_add b d)). by apply store_repr_add.
Qed.

(** What a store built from scratch holds after the pushes [ds]. *)
Lemma store_repr_history N ds :
  0 < N -> store_repr N (push_all (data_buffer_init N) ds) (tagged 0 ds).
Proof.
  intros HN.
  exact (store_repr_push_all N ds (data_buffer_init N) [] (store_repr_init N HN)).
Qed.

(** The [i]-th push after sequence number [seq] carries [seq + i + 1]. *)
Lemma tagged_lookup ds : forall seq i,
  tagged seq ds !! i
  = (fun d => {| sample_data := d;
                 sample_seq := wrap32 (seq + Z.of_nat i + 1) |}) <$> ds !! i.
Proof.
  induction ds as [|d ds IH]; intros seq i; [done|].
  destruct i as [|i]; cbn [tagged].
  - cbn. unfold u32_add. do 3 f_equal. lia.
  - change ((?x :: ?l) !! S i) with (l !! i).
    rewrite IH. destruct (ds !! i); [|done]. cbn.
    unfold u32_add. rewrite <- Z.add_assoc, wrap32_add_l. do 3 f_equal. lia.
Qed.

Lemma length_tagged ds : forall seq, length (tagged seq ds) = length ds.
Proof. induction ds as [|d ds IH]; intros seq; cbn; [done|]. by rewrite IH. Qed.

Lemma tagged_data ds : forall seq, map sample_data (tagged seq ds) = ds.
Proof. induction ds as [|d ds IH]; intros seq; cbn; [done|]. by rewrite IH. Qed.

Lemma tagged_snoc ds d : forall seq,
  tagged seq (ds ++ [d])
  = tagged seq ds
    ++ [{| sample_data := d;
           sample_seq := wrap32 (seq + Z.of_nat (length ds) + 1) |}].
Proof.
  induction ds as [|d0 ds IH]; intros seq.
  - cbn. unfold u32_add. do 3 f_equal. lia.
  - cbn [app tagged length]. rewrite IH. do 4 f_equal.
    unfold u32_add. rewrite <- Z.add_assoc, wrap32_add_l. f_equal. lia.
Qed.

(** Walking back [n] slots from position [k] copies the [n] pushes that
    precede the [k] newest ones, oldest first. *)
Lemma copy_back_repr N b h : 
  store_repr N b h ->
  forall n k acc, k + n <= N ->
    copy_back b k n acc = rev (take n (drop k (rev h))) ++ acc.
Proof.
  intros (_ & _ & Hback). induction n as [|n IH]; intros k acc Hkn; [done|].
  cbn [copy_back]. rewrite Hback by lia.
  destruct (rev h !! k) as [s|] eqn:Hk.
  - rewrite IH by lia.
    rewrite (drop_S _ _ _ Hk). cbn [take rev]. by rewrite <- app_assoc.
  - apply lookup_ge_None in Hk. by rewrite drop_ge.
Qed.

Lemma rev_take_rev {A : Type} (n : nat) (l : list A) :
  rev (take n (rev l)) = last_n n l.
Proof. unfold last_n. by rewrite firstn_rev, rev_involutive. Qed.

Lemma copy_recent_repr N b h m :
  store_repr N b h ->
  recent_samples (imu_manager_copy_recent_samples b m)
  = last_n (Nat.min m (Nat.min N (length h))) h.
Proof.
  intros Hrepr. pose proof Hrepr as (Hcap & _ & _).
  cbn [imu_manager_copy_recent_samples recent_samples].
  rewrite (copy_back_repr N b h Hrepr) by (rewrite Hcap; lia).
  rewrite drop_0, app_nil_r, rev_take_rev, Hcap. unfold last_n.
  f_equal. lia.
Qed.

Lemma get_latest_repr N b h :
  store_repr N b h -> data_buffer_get_latest b = rev h !! 0.
Proof.
  intros (Hcap & Hcur & Hback). rewrite <- Hback by lia.
  unfold data_buffer_get_latest, slot_back. by rewrite Hcap, ring_back_0.
Qed.

Lemma push_all_sequence_id ds : forall b,
  in_range 32 (sequence_id b) ->
  sequence_id (push_all b ds)
  = wrap32 (sequence_id b + Z.of_nat (length ds)).
Proof.
  induction ds as [|d ds IH]; intros b Hb.
  - cbn. rewrite Z.add_0_r. symmetry. by apply wrap_small.
  - cbn [push_all fold_left]. fold (push_all (data_buffer_add b d) ds).
    rewrite IH by (apply wrap_range; lia).
    cbn [data_buffer_add sequence_id length]. unfold u32_add.
    rewrite wrap32_add_l. f_equal. lia.
Qed.

Lemma wrap32_sub a b : wrap32 (wrap32 a - wrap32 b) = wrap32 (a - b).
Proof. unfold wrap32, wrap. by rewrite Zminus_mod_idemp_l, Zminus_mod_idemp_r. Qed.

(** How many pushes of an unwrapped history fall strictly between two
    sequence numbers. *)
Lemma unseen_tagged_length lo hi ds : forall seq,
  (0 <= seq)%Z -> (seq + Z.of_nat (length ds) < 2 ^ 32)%Z ->
  Z.of_nat (length (unseen lo hi (tagged seq ds)))
  = Z.max 0 (Z.min (hi - 1) (seq + Z.of_nat (length ds)) - Z.max lo seq).
Proof.
  induction ds as [|d ds IH]; intros seq Hseq Hlen.
  - cbn. lia.
  - cbn [length] in Hlen.
    assert (Hs : u32_add seq 1 = (seq + 1)%Z).
    { apply wrap_small. unfold in_range. lia. }
    cbn [tagged unseen List.filter sample_seq]. rewrite Hs.
    fold (unseen lo hi (tagged (seq + 1) ds)).
    specialize (IH (seq + 1)%Z ltac:(lia) ltac:(lia)).
    destruct (lo <? seq + 1)%Z eqn:E1; destruct (seq + 1 <? hi)%Z eqn:E2;
      cbn [andb length]; lia.
Qed.

(** The analytics task counts a sample as soon as one push has occurred,
    and only then. *)
Lemma data_processor_counts hz N ds count :
  0 < N ->
  fst (data_processor_body hz count (push_all (data_buffer_init N) ds))
  = if decide (ds = []) then count else u32_add count 1.
Proof.
  intros HN. unfold data_processor_body.
  rewrite (get_latest_repr N _ _ (store_repr_history N ds HN)).
  case_decide as Hds; [by subst|].
  destruct (exists_last Hds) as (ds' & d & ->).
  by rewrite tagged_snoc, rev_app_distr.
Qed.

End StoreFacts.

(** C4. [data_buffer_get_latest] reports no data if and only if nothing has
    ever been pushed; after any push, the first included, it returns the
    sample of that push, tagged with the push's sequence number, whatever
    was pushed before: never an older one. *)
Theorem get_latest_most_recent (N : nat) (ds : list imu_data_t) :
  (0 < N)%nat ->
  (data_buffer_get_latest (push_all (data_buffer_init N) ds) = None <-> ds = []) /\
  (forall d,
     data_buffer_get_latest (push_all (data_buffer_init N) (ds ++ [d]))
     = Some {| sample_data := d;
               sample_seq := wrap32 (Z.of_nat (length ds) + 1) |}).
Proof.
  intros HN.
  assert (Hlast : forall ds' d,
    data_buffer_get_latest (push_all (data_buffer_init N) (ds' ++ [d]))
    = Some {| sample_data := d;
              sample_seq := wrap32 (Z.of_nat (length ds') + 1) |}).
  { intros ds' d.
    rewrite (get_latest_repr N _ _ (store_repr_history N (ds' ++ [d]) HN)).
    by rewrite tagged_snoc, rev_app_distr. }
  split; [|apply Hlast]. split.
  - intros Hnone. destruct (decide (ds = [])) as [|Hne]; [done|].
    destruct (exists_last Hne) as (ds' & d & ->).
    by rewrite Hlast in Hnone.
  - intros ->. by rewrite (get_latest_repr N _ _ (store_repr_history N [] HN)).
Qed.

Lemma get_latest_most_recent_witness :
  (0 < IMU_MANAGER_MAX_SAMPLES)%nat /\
  data_buffer_get_latest
    (push_all (data_buffer_init IMU_MANAGER_MAX_SAMPLES)
       ([reading 10 1; reading 20 1] ++ [reading 30 2]))
  = Some {| sample_data := reading 30 2; sample_seq := 3 |}.
Proof.
  assert (HN : (0 < IMU_MANAGER_MAX_SAMPLES)%nat)
    by (unfold IMU_MANAGER_MAX_SAMPLES; lia).
  split; [exact HN|].
  exact (proj2 (get_latest_most_recent IMU_MANAGER_MAX_SAMPLES
                  [reading 10 1; reading 20 1] HN) (reading 30 2)).
Defined.

(** C5. For every store of capacity N, every push history of length p and
    every [max_samples] m, [imu_manager_copy_recent_samples] returns exactly
    min(m, min(N, p)) samples: the most recently pushed ones, oldest first,
    each with the sequence number of its push, so that each returned
    sequence number is its predecessor's plus one on 32 bits. In particular
    after N + k pushes a copy of N samples is the last N pushes in push
    order. *)
Theorem copy_recent_samples_most_recent (N : nat) (ds : list imu_data_t) (m : nat) :
  (0 < N)%nat ->
  let n := Nat.min m (Nat.min N (length ds)) in
  let r := recent_samples
             (imu_manager_copy_recent_samples (push_all (data_buffer_init N) ds) m) in
  length r = n /\
  r = last_n n (tagged 0 ds) /\
  map sample_data r = last_n n ds /\
  (forall i s s', r !! i = Some s -> r !! S i = Some s' ->
     sample_seq s' = u32_add (sample_seq s) 1 /\
     sequence_gap (sample_seq s) (sample_seq s') = 1) /\
  (m = N -> (N <= length ds)%nat -> map sample_data r = last_n N ds).
Proof.
  intros HN n r.
  assert (Hr : r = last_n n (tagged 0 ds)).
  { unfold r, n.
    rewrite (copy_recent_repr N _ _ m (store_repr_history N ds HN)).
    by rewrite length_tagged. }
  assert (Hd : map sample_data r = last_n n ds).
  { rewrite Hr. unfold last_n.
    by rewrite <- skipn_map, tagged_data, length_tagged. }
  split; [|split; [done|split; [done|split]]].
  - rewrite Hr. unfold last_n. rewrite length_drop, length_tagged. lia.
  - intros i s s'. rewrite Hr. unfold last_n.
    rewrite !lookup_drop, !tagged_lookup, length_tagged.
    replace (length ds - n + S i)%nat with (S (length ds - n + i)) by lia.
    destruct (ds !! (length ds - n + i)%nat) as [d|]; [|done].
    destruct (ds !! S (length ds - n + i)) as [d'|]; [|done].
    cbn. intros [= <-] [= <-]. cbn [sample_seq]. unfold sequence_gap, u32_sub, u32_add.
    rewrite wrap32_add_l, wrap32_sub. split; [f_equal; lia|].
    replace (0 + Z.of_nat (S (length ds - n + i)) + 1
             - (0 + Z.of_nat (length ds - n + i) + 1)) with 1 by lia.
    reflexivity.
  - intros -> Hlen. rewrite Hd. unfold n. f_equal. lia.
Qed.

Lemma copy_recent_samples_most_recent_witness :
  (0 < 3)%nat /\
  map sample_data
    (recent_samples
       (imu_manager_copy_recent_samples
          (push_all (data_buffer_init 3)
             [reading 10 1; reading 20 1; reading 30 1; reading 40 1; reading 50 1])
          3))
  = last_n 3 [reading 10 1; reading 20 1; reading 30 1; reading 40 1; reading 50 1].
Proof.
  assert (HN : (0 < 3)%nat) by lia.
  split; [exact HN|].
  destruct (copy_recent_samples_most_recent 3
              [reading 10 1; reading 20 1; reading 30 1; reading 40 1; reading 50 1]
              3 HN) as (_ & _ & _ & _ & Hlast).
  apply Hlast; [reflexivity|cbn; lia].
Defined.

(** C6, as stated, fails: for a store of [IMU_MANAGER_MAX_SAMPLES] = 128
    slots and pushes numbered 1 to 133, a reader that saw sequence number 2
    and next observes 131, which the store then holds, finds a gap of 129
    and so 128 missed samples, the 128 pushes numbered 3 to 130; not 127. *)
Lemma missed_samples_counterexample :
  sequence_id (push_all (data_buffer_init IMU_MANAGER_MAX_SAMPLES)
                 (replicate (5 + IMU_MANAGER_MAX_SAMPLES) (reading 0 1)))
  = 5 + Z.of_nat IMU_MANAGER_MAX_SAMPLES /\
  In (2 + Z.of_nat IMU_MANAGER_MAX_SAMPLES + 1)
     (map sample_seq
        (recent_samples
           (imu_manager_copy_recent_samples
              (push_all (data_buffer_init IMU_MANAGER_MAX_SAMPLES)
                 (replicate (5 + IMU_MANAGER_MAX_SAMPLES) (reading 0 1)))
              IMU_MANAGER_MAX_SAMPLES))) /\
  missed_samples 2 (2 + Z.of_nat IMU_MANAGER_MAX_SAMPLES + 1) = 128 /\
  length (unseen 2 (2 + Z.of_nat IMU_MANAGER_MAX_SAMPLES + 1)
            (tagged 0 (replicate (5 + IMU_MANAGER_MAX_SAMPLES) (reading 0 1))))
  = 128%nat /\
  missed_samples 2 (2 + Z.of_nat IMU_MANAGER_MAX_SAMPLES + 1)
  <> Z.of_nat IMU_MANAGER_MAX_SAMPLES - 1.
Proof.
  split; [by vm_compute|]. split.
  { apply (proj1 (list_elem_of_In _ _)), list_elem_of_lookup.
    exists 125%nat. by vm_compute. }
  split; [by vm_compute|]. split; [by vm_compute|].
  vm_compute. congruence.
Qed.

(** C6, amended. For a store of capacity N, after pushes with sequence
    numbers 1 through 5 + N, a reader whose last-seen sequence number is 2
    and who next observes 2 + N + 1 computes, by wrap-around-safe 32-bit
    subtraction, a gap of N + 1 and so a loss of N missed samples, which is
    the number of pushes numbered strictly between the two. *)
Theorem missed_samples_gap (N : nat) (ds : list imu_data_t) :
  length ds = (5 + N)%nat ->
  Z.of_nat N + 5 < 2 ^ 32 ->
  sequence_id (push_all (data_buffer_init N) ds) = 5 + Z.of_nat N /\
  sequence_gap 2 (2 + Z.of_nat N + 1) = Z.of_nat N + 1 /\
  missed_samples 2 (2 + Z.of_nat N + 1) = Z.of_nat N /\
  length (unseen 2 (2 + Z.of_nat N + 1) (tagged 0 ds)) = N.
Proof.
  intros Hlen HN.
  assert (Hgap : sequence_gap 2 (2 + Z.of_nat N + 1) = Z.of_nat N + 1).
  { unfold sequence_gap, u32_sub.
    replace (2 + Z.of_nat N + 1 - 2) with (Z.of_nat N + 1) by lia.
    apply wrap_small. unfold in_range. lia. }
  split.
  { rewrite push_all_sequence_id by (unfold in_range; cbn; lia).
    cbn [data_buffer_init sequence_id]. rewrite Hlen.
    rewrite (wrap_small 32 : forall x, _ -> wrap32 x = x) by (unfold in_range; lia).
    lia. }
  split; [done|]. split; [unfold missed_samples; lia|].
  apply Nat2Z.inj.
  rewrite unseen_tagged_length by (rewrite ?Hlen; lia).
  rewrite Hlen. lia.
Qed.

Lemma missed_samples_gap_witness :
  length (replicate 8 (reading 0 1)) = (5 + 3)%nat /\
  Z.of_nat 3 + 5 < 2 ^ 32 /\
  missed_samples 2 (2 + Z.of_nat 3 + 1) = Z.of_nat 3.
Proof.
  assert (H1 : length (replicate 8 (reading 0 1)) = (5 + 3)%nat) by reflexivity.
  assert (H2 : Z.of_nat 3 + 5 < 2 ^ 32) by (cbn; lia).
  refine (conj H1 (conj H2 _)).
  destruct (missed_samples_gap 3 (replicate 8 (reading 0 1)) H1 H2)
    as (_ & _ & Hmiss & _).
  exact Hmiss.
Defined.

(** * More of [main.c] *)

(** ** [imu_task] over arbitrary traces *)

Section TaskTraces.

Variable hz : Z.

(** A cycle reads the window and the store, never [last_wake_time]. *)
Lemma imu_task_cycle_equiv st st' r :
  window_of st = window_of st' -> buffer st = buffer st' ->
  window_of (fst (imu_task_cycle hz st r)) = window_of (fst (imu_task_cycle hz st' r)) /\
  buffer (fst (imu_task_cycle hz st r)) = buffer (fst (imu_task_cycle hz st' r)) /\
  snd (imu_task_cycle hz st r) = snd (imu_task_cycle hz st' r).
Proof.
  destruct st, st'. unfold window_of. cbn. intros [= -> -> ->] ->.
  destruct r as [d|code]; cbn; [|done].
  by destruct (1000000 <=? _).
Qed.

Lemma imu_task_cycle_err_state st code :
  window_of (fst (imu_task_cycle hz st (ReadErr code))) = window_of st /\
  buffer (fst (imu_task_cycle hz st (ReadErr code))) = buffer st /\
  stats_line (snd (imu_task_cycle hz st (ReadErr code))) = None.
Proof. done. Qed.

Lemma imu_task_run_cons st env envs :
  imu_task_run hz st (env :: envs)
  = (fst (imu_task_run hz (fst (imu_task_body hz st env)) envs),
     snd (imu_task_body hz st env)
       :: snd (imu_task_run hz (fst (imu_task_body hz st env)) envs)).
Proof.
  cbn [imu_task_run]. destruct (imu_task_body hz st env) as [st1 evs].
  cbn [fst snd]. by destruct (imu_task_run hz st1 envs).
Qed.

Lemma omap_cons {A B : Type} (f : A -> option B) (x : A) (l : list A) :
  omap f (x :: l)
  = match f x with Some y => y :: omap f l | None => omap f l end.
Proof. reflexivity. Qed.

Lemma decoded_cons env envs :
  decoded (env :: envs)
  = match env_read_all env with
    | ReadOk d => d :: decoded envs
    | ReadErr _ => decoded envs
    end.
Proof. unfold decoded. rewrite omap_cons. by destruct (env_read_all env). Qed.

Lemma imu_task_run_skips_failures envs : forall st st',
  window_of st = window_of st' -> buffer st = buffer st' ->
  omap stats_line (snd (imu_task_run hz st envs))
  = omap stats_line
      (snd (imu_task_run hz st' (map (fun d => ok_env (d, (0, 0))) (decoded envs)))) /\
  window_of (fst (imu_task_run hz st envs))
  = window_of (fst (imu_task_run hz st'
                      (map (fun d => ok_env (d, (0, 0))) (decoded envs)))) /\
  buffer (fst (imu_task_run hz st envs))
  = buffer (fst (imu_task_run hz st'
                   (map (fun d => ok_env (d, (0, 0))) (decoded envs)))).
Proof.
  induction envs as [|env envs IH]; intros st st' Hw Hb; [done|].
  rewrite imu_task_run_cons, decoded_cons. cbn [fst snd].
  rewrite omap_cons, imu_task_body_events, stats_line_app_delay.
  destruct env as [[d|code] clock tick]; cbn [env_read_all].
  - cbn [map]. rewrite imu_task_run_cons. cbn [fst snd].
    rewrite omap_cons, imu_task_body_events, stats_line_app_delay.
    cbn [ok_env env_read_all fst].
    destruct (imu_task_cycle_equiv st st' (ReadOk d) Hw Hb) as (Hw1 & Hb1 & He1).
    rewrite He1.
    match goal with
    | |- context [imu_task_run hz (fst (imu_task_body hz st ?e)) envs] =>
        match goal with
        | |- context [imu_task_run hz (fst (imu_task_body hz st' ?e')) _] =>
            destruct (IH (fst (imu_task_body hz st e)) (fst (imu_task_body hz st' e')))
              as (IH1 & IH2 & IH3)
        end
    end.
    { by rewrite !imu_task_body_window. }
    { by rewrite !imu_task_body_buffer. }
    by rewrite IH1, IH2, IH3.
  - match goal with
    | |- context [imu_task_run hz (fst (imu_task_body hz st ?e)) envs] =>
        destruct (IH (fst (imu_task_body hz st e)) st') as (IH1 & IH2 & IH3)
    end.
    { by rewrite imu_task_body_window. }
    { by rewrite imu_task_body_buffer. }
    by rewrite IH1, IH2, IH3.
Qed.

End TaskTraces.

(** X1. Failed cycles are invisible to the statistics and to the store: a
    run over any mix of successful and failed cycles logs the same
    statistics lines, in the same order, and ends with the same window and
    the same store as the run over its successful cycles alone. *)
Theorem imu_task_failures_transparent (hz : Z) (st : imu_task_state)
    (envs : list cycle_env) :
  omap stats_line (snd (imu_task_run hz st envs))
  = omap stats_line
      (snd (imu_task_run hz st (map (fun d => ok_env (d, (0, 0))) (decoded envs)))) /\
  window_of (fst (imu_task_run hz st envs))
  = window_of (fst (imu_task_run hz st
                      (map (fun d => ok_env (d, (0, 0))) (decoded envs)))) /\
  buffer (fst (imu_task_run hz st envs))
  = buffer (fst (imu_task_run hz st
                   (map (fun d => ok_env (d, (0, 0))) (decoded envs)))).
Proof. by apply imu_task_run_skips_failures. Qed.

Lemma buffer_adds_app evs evs' :
  buffer_adds (evs ++ evs') = buffer_adds evs ++ buffer_adds evs'.
Proof.
  unfold buffer_adds. induction evs as [|e evs IH]; [done|].
  cbn [app]. rewrite !omap_cons, IH. by destruct e.
Qed.

Lemma imu_task_body_adds hz st env :
  buffer_adds (snd (imu_task_body hz st env))
  = match env_read_all env with ReadOk d => [d] | ReadErr _ => [] end /\
  buffer (fst (imu_task_body hz st env))
  = match env_read_all env with
    | ReadOk d => data_buffer_add (buffer st) d
    | ReadErr _ => buffer st
    end.
Proof.
  rewrite imu_task_body_events, imu_task_body_buffer, buffer_adds_app.
  destruct (env_read_all env) as [d|code]; [|done].
  cbn. by destruct (1000000 <=? _).
Qed.

(** X2. The task pushes every successfully decoded sample exactly once, in
    decode order, and nothing else: the calls to [data_buffer_add] over a run
    are the decoded samples, and the store at the end is the store at the
    start with those samples pushed. *)
Theorem imu_task_pushes_decoded (hz : Z) (envs : list cycle_env) :
  forall st,
    buffer_adds (concat (snd (imu_task_run hz st envs))) = decoded envs /\
    buffer (fst (imu_task_run hz st envs)) = push_all (buffer st) (decoded envs).
Proof.
  induction envs as [|env envs IH]; intros st; [done|].
  rewrite imu_task_run_cons, decoded_cons. cbn [fst snd concat].
  rewrite buffer_adds_app.
  destruct (imu_task_body_adds hz st env) as [-> Hbuf].
  destruct (IH (fst (imu_task_body hz st env))) as [-> ->].
  rewrite Hbuf. by destruct (env_read_all env).
Qed.

Lemma imu_task_body_wake hz st env :
  last_wake_time (fst (imu_task_body hz st env))
  = u32_add (last_wake_time st) (tick_delay hz).
Proof.
  unfold imu_task_body.
  destruct (env_read_all env) as [d|code]; cbn; [|done].
  by destruct (1000000 <=? _).
Qed.

Lemma imu_task_run_wake hz envs : forall st,
  wrap32 (last_wake_time (fst (imu_task_run hz st envs)))
  = wrap32 (last_wake_time st + Z.of_nat (length envs) * tick_delay hz).
Proof.
  induction envs as [|env envs IH]; intros st.
  - cbn. by rewrite Z.add_0_r.
  - rewrite imu_task_run_cons. cbn [fst length].
    rewrite IH, imu_task_body_wake. unfold u32_add.
    rewrite wrap32_add_l. f_equal. lia.
Qed.

Lemma imu_task_run_wake_range hz envs : forall st,
  in_range 32 (last_wake_time st) ->
  in_range 32 (last_wake_time (fst (imu_task_run hz st envs))).
Proof.
  induction envs as [|env envs IH]; intros st Hr; [done|].
  rewrite imu_task_run_cons. cbn [fst]. apply IH.
  rewrite imu_task_body_wake. apply wrap_range. lia.
Qed.

(** X3. The wake-up deadline advances by exactly one period per iteration,
    whatever the cycles did: [n] iterations after the task started at tick
    count [tick0], [last_wake_time] is [tick0 + n * tick_delay] on the
    32-bit tick counter, so neither a failed decode nor its extra
    [vTaskDelay] shifts the schedule. *)
Theorem imu_task_deadline_advances (hz tick0 clock0 : Z) (buf : data_buffer_t)
    (envs : list cycle_env) :
  exists st,
    fst (imu_task_steps hz (fst (imu_task_start true tick0 clock0 buf)) envs)
    = TaskRunning st /\
    last_wake_time st
    = wrap32 (tick0 + Z.of_nat (length envs) * tick_delay hz).
Proof.
  cbn [imu_task_start fst]. rewrite imu_task_steps_running. cbn [fst].
  eexists. split; [reflexivity|].
  match goal with
  | |- last_wake_time (fst (imu_task_run hz ?s envs)) = _ =>
      pose proof (imu_task_run_wake hz envs s) as Hw;
      pose proof (imu_task_run_wake_range hz envs s) as Hr
  end.
  cbn [last_wake_time] in Hw, Hr.
  rewrite (wrap_small 32 _ (Hr (wrap_range 32 tick0 ltac:(lia)))
           : wrap32 _ = _) in Hw.
  rewrite Hw. unfold wrap32 at 2. apply wrap32_add_l.
Qed.

Lemma last_cons_default {A : Type} (x d : A) (l : list A) :
  List.last (x :: l) d = List.last l x.
Proof.
  revert x d. induction l as [|y l IH]; intros x d; [done|].
  change (List.last (x :: y :: l) d) with (List.last (y :: l) d).
  by rewrite !IH.
Qed.

Lemma imu_task_run_window_start hz ds : forall st,
  0 <= stats_window_start st ->
  monotone_from (stats_window_start st) ds ->
  stats_window_start st
  + 1000000 * Z.of_nat (length (omap stats_line
                                  (snd (imu_task_run hz st
                                          (map (fun d => ok_env (d, (0, 0))) ds)))))
  <= stats_window_start
       (fst (imu_task_run hz st (map (fun d => ok_env (d, (0, 0))) ds))) /\
  stats_window_start
    (fst (imu_task_run hz st (map (fun d => ok_env (d, (0, 0))) ds)))
  <= newest_timestamp (stats_window_start st) ds.
Proof.
  assert (Hgen : forall st lo,
    0 <= stats_window_start st <= lo ->
    monotone_from lo ds ->
    stats_window_start st
    + 1000000 * Z.of_nat (length (omap stats_line
                                    (snd (imu_task_run hz st
                                            (map (fun d => ok_env (d, (0, 0))) ds)))))
    <= stats_window_start
         (fst (imu_task_run hz st (map (fun d => ok_env (d, (0, 0))) ds))) /\
    stats_window_start
      (fst (imu_task_run hz st (map (fun d => ok_env (d, (0, 0))) ds)))
    <= newest_timestamp lo ds).
  { induction ds as [|d ds IH]; intros st lo Hst Hmono.
    - cbn. lia.
    - destruct Hmono as [Hd Hmono]. cbn [map].
      rewrite imu_task_run_cons. cbn [fst snd].
      rewrite omap_cons, imu_task_body_events, stats_line_app_delay.
      unfold newest_timestamp. cbn [map]. rewrite last_cons_default.
      fold (newest_timestamp (timestamp_us d) ds).
      pose proof (imu_task_body_window hz st (ok_env (d, (0, 0)))) as Hw.
      pose proof (imu_task_cycle_ok hz st d) as Hc.
      cbn [ok_env env_read_all fst] in Hw |- *.
      destruct (imu_task_cycle hz st (ReadOk d)) as [st1 evs].
      destruct Hc as (_ & _ & Hc). cbn [fst snd] in Hw |- *.
      assert (He : u64_sub (timestamp_us d) (stats_window_start st)
                   = timestamp_us d - stats_window_start st).
      { apply wrap_small. unfold in_range. lia. }
      rewrite He in Hc.
      set (st2 := fst (imu_task_body hz st (ok_env (d, (0, 0))))) in *.
      case_decide as Hclose; destruct Hc as [Hwin ->].
      + rewrite Hwin in Hw. injection Hw as Hs _ _.
        destruct (IH st2 (timestamp_us d)) as [IH1 IH2]; [lia|done|].
        unfold log_stats. cbn [stats_line length]. lia.
      + rewrite Hwin in Hw. injection Hw as Hs _ _.
        destruct (IH st2 (timestamp_us d)) as [IH1 IH2]; [lia|done|].
        cbn [stats_line]. lia. }
  intros st H0 Hmono. apply Hgen; [lia|done].
Qed.

(** X4. With sample timestamps that never run backwards from the window
    start on, the task logs at most one statistics line per second of sample
    time: each close moves the window start forward by at least 1,000,000
    microseconds, and the window start never passes the newest sample. *)
Theorem imu_task_log_rate (hz : Z) (st : imu_task_state) (ds : list imu_data_t) :
  0 <= stats_window_start st ->
  monotone_from (stats_window_start st) ds ->
  1000000 * Z.of_nat (length (omap stats_line
                                (snd (imu_task_run hz st
                                        (map (fun d => ok_env (d, (0, 0))) ds)))))
  <= newest_timestamp (stats_window_start st) ds - stats_window_start st.
Proof.
  intros H0 Hmono.
  destruct (imu_task_run_window_start hz ds st H0 Hmono) as [H1 H2]. lia.
Qed.

Lemma imu_task_log_rate_witness :
  0 <= stats_window_start (fresh_state 100) /\
  monotone_from (stats_window_start (fresh_state 100))
    [reading 600000 10; reading 1100000 10; reading 1700000 10; reading 2100000 10] /\
  1000000 * Z.of_nat (length (omap stats_line
                                (snd (imu_task_run 1000 (fresh_state 100)
                                        (map (fun d => ok_env (d, (0, 0)))
                                           [reading 600000 10; reading 1100000 10;
                                            reading 1700000 10; reading 2100000 10])))))
  <= newest_timestamp (stats_window_start (fresh_state 100))
       [reading 600000 10; reading 1100000 10; reading 1700000 10; reading 2100000 10]
     - stats_window_start (fresh_state 100).
Proof.
  assert (H0 : 0 <= stats_window_start (fresh_state 100)) by (cbn; lia).
  assert (H1 : monotone_from (stats_window_start (fresh_state 100))
                 [reading 600000 10; reading 1100000 10; reading 1700000 10;
                  reading 2100000 10]) by (cbn; lia).
  refine (conj H0 (conj H1 _)).
  exact (imu_task_log_rate 1000 (fresh_state 100) _ H0 H1).
Defined.

(** X5. In ticks: for a tick rate whose fivefold fits 32 bits the loop
    period [tick_delay] is [max(1, configTICK_RATE_HZ / 1000)], one tick at
    any rate below 2000 Hz; and the back-off of a failed cycle,
    [pdMS_TO_TICKS(5)], is [5 * configTICK_RATE_HZ / 1000] ticks, none at
    all at a rate below 200 Hz. *)
Theorem imu_task_tick_periods (hz : Z) :
  0 <= hz -> 5 * hz < 2 ^ 32 ->
  tick_delay hz = Z.max 1 (hz / 1000) /\
  pdMS_TO_TICKS hz 5 = 5 * hz / 1000 /\
  (hz < 2000 -> tick_delay hz = 1) /\
  (hz < 200 -> pdMS_TO_TICKS hz 5 = 0).
Proof.
  intros H0 H1.
  assert (Hms : forall ms, 0 <= ms <= 5 -> pdMS_TO_TICKS hz ms = ms * hz / 1000).
  { intros ms Hms. unfold pdMS_TO_TICKS, u32_mul.
    assert (E1 : wrap32 ms = ms) by (apply wrap_small; unfold in_range; lia).
    assert (E2 : wrap32 hz = hz) by (apply wrap_small; unfold in_range; lia).
    assert (E3 : wrap32 (ms * hz) = ms * hz)
      by (apply wrap_small; unfold in_range; nia).
    rewrite E1, E2, E3. apply wrap_small. unfold in_range.
    split; [apply Z.div_pos; nia|].
    apply Z.div_lt_upper_bound; nia. }
  assert (Htd : tick_delay hz = Z.max 1 (hz / 1000)).
  { unfold tick_delay, frequency. rewrite Hms by lia. rewrite Z.mul_1_l.
    destruct (0 <? hz / 1000) eqn:E.
    - apply Z.ltb_lt in E. lia.
    - apply Z.ltb_nlt in E. assert (0 <= hz / 1000) by (apply Z.div_pos; lia). lia. }
  split; [done|]. split; [apply Hms; lia|]. split.
  - intros Hlt. rewrite Htd.
    assert (hz / 1000 < 2) by (apply Z.div_lt_upper_bound; lia). 
    assert (0 <= hz / 1000) by (apply Z.div_pos; lia). lia.
  - intros Hlt. rewrite Hms by lia. apply Z.div_small. lia.
Qed.

Lemma imu_task_tick_periods_witness :
  0 <= 100 /\ 5 * 100 < 2 ^ 32 /\
  tick_delay 100 = 1 /\ pdMS_TO_TICKS 100 5 = 0.
Proof.
  assert (H0 : 0 <= 100) by lia.
  assert (H1 : 5 * 100 < 2 ^ 32) by lia.
  refine (conj H0 (conj H1 _)).
  destruct (imu_task_tick_periods 100 H0 H1) as (_ & _ & Ht & Hb).
  split; [apply Ht|apply Hb]; lia.
Defined.

(** ** [data_processor_task] *)

Lemma data_processor_body_cycle hz count b :
  data_processor_body hz count b
  = data_processor_cycle hz count (data_buffer_get_latest b).
Proof. reflexivity. Qed.

Lemma data_processor_run_cons hz count latest reads :
  data_processor_run hz count (latest :: reads)
  = (fst (data_processor_run hz (fst (data_processor_cycle hz count latest)) reads),
     snd (data_processor_cycle hz count latest)
       ++ snd (data_processor_run hz (fst (data_processor_cycle hz count latest)) reads)).
Proof.
  cbn [data_processor_run].
  destruct (data_processor_cycle hz count latest) as [c evs]. cbn [fst snd].
  by destruct (data_processor_run hz c reads).
Qed.

Lemma reads_ok_cons latest reads :
  reads_ok (latest :: reads)
  = match latest with Some _ => 1 | None => 0 end + reads_ok reads.
Proof.
  unfold reads_ok. rewrite omap_cons. destruct latest; cbn [id length]; lia.
Qed.

Lemma reads_ok_nonneg reads : 0 <= reads_ok reads.
Proof. unfold reads_ok. lia. Qed.

Lemma log_infos_app evs evs' : log_infos (evs ++ evs') = log_infos evs + log_infos evs'.
Proof. unfold log_infos. rewrite List.filter_app, length_app. lia. Qed.

Lemma delay_ticks_app evs evs' :
  delay_ticks (evs ++ evs') = delay_ticks evs + delay_ticks evs'.
Proof.
  induction evs as [|e evs IH]; [done|].
  cbn [app delay_ticks]. destruct e; lia.
Qed.

Lemma data_processor_run_counts hz reads : forall count,
  0 <= count -> count + reads_ok reads < 2 ^ 32 ->
  fst (data_processor_run hz count reads) = count + reads_ok reads /\
  log_infos (snd (data_processor_run hz count reads))
  = (count + reads_ok reads) / 1000 - count / 1000.
Proof.
  induction reads as [|latest reads IH]; intros count H0 H1.
  - change (reads_ok []) with 0. rewrite Z.add_0_r.
    split; [done|]. change (log_infos _) with 0. lia.
  - rewrite reads_ok_cons in *. pose proof (reads_ok_nonneg reads) as Hk.
    rewrite data_processor_run_cons. cbn [fst snd]. rewrite log_infos_app.
    destruct latest as [s|]; cbn [data_processor_cycle fst snd];
      cbn match in H1 |- *.
    + assert (Hc : u32_add count 1 = count + 1).
      { apply wrap_small. unfold in_range. lia. }
      rewrite Hc. destruct (IH (count + 1)) as [-> ->]; [lia|lia|].
      split; [lia|]. rewrite log_infos_app.
      replace (count + 1 + reads_ok reads) with (count + (1 + reads_ok reads)) by lia.
      destruct ((count + 1) mod 1000 =? 0) eqn:E.
      * apply Z.eqb_eq in E. unfold log_infos. cbn.
        Z.to_euclidean_division_equations. lia.
      * apply Z.eqb_neq in E. unfold log_infos. cbn.
        Z.to_euclidean_division_equations. lia.
    + destruct (IH count) as [-> ->]; [lia|lia|].
      unfold log_infos at 1. cbn. split; [lia|]. do 2 f_equal.
Qed.

(** X6. The analytics task counts exactly the reads that found a sample and
    logs its progress line once every 1000 of them: after any run that
    started from zero with fewer than 2^32 successful reads,
    [processed_count] is the number of successful reads and the progress
    lines number that count divided by 1000, rounded down. *)
Theorem data_processor_progress (hz : Z) (reads : list (option sample_t)) :
  reads_ok reads < 2 ^ 32 ->
  fst (data_processor_run hz 0 reads) = reads_ok reads /\
  log_infos (snd (data_processor_run hz 0 reads)) = reads_ok reads / 1000.
Proof.
  intros Hk.
  destruct (data_processor_run_counts hz reads 0) as [-> ->]; [lia|lia|].
  rewrite Z.add_0_l. split; [done|]. rewrite Z.div_0_l by lia. lia.
Qed.

Lemma data_processor_progress_witness :
  reads_ok (replicate 2500 (Some {| sample_data := reading 0 1; sample_seq := 1 |})
            ++ [None]) < 2 ^ 32 /\
  log_infos (snd (data_processor_run 100 0
                    (replicate 2500 (Some {| sample_data := reading 0 1;
                                             sample_seq := 1 |}) ++ [None])))
  = reads_ok (replicate 2500 (Some {| sample_data := reading 0 1; sample_seq := 1 |})
              ++ [None]) / 1000.
Proof.
  assert (Hk : reads_ok (replicate 2500 (Some {| sample_data := reading 0 1;
                                                 sample_seq := 1 |}) ++ [None])
               < 2 ^ 32) by (vm_compute; reflexivity).
  refine (conj Hk _).
  exact (proj2 (data_processor_progress 100 _ Hk)).
Defined.

(** X7. The analytics task yields on every iteration: over any run the
    ticks it asks [vTaskDelay] for add up to [pdMS_TO_TICKS(100)] per
    iteration plus [pdMS_TO_TICKS(10)] per read that found the store
    empty. *)
Theorem data_processor_sleeps (hz : Z) (reads : list (option sample_t)) :
  forall count,
    delay_ticks (snd (data_processor_run hz count reads))
    = Z.of_nat (length reads) * pdMS_TO_TICKS hz 100
      + (Z.of_nat (length reads) - reads_ok reads) * pdMS_TO_TICKS hz 10.
Proof.
  induction reads as [|latest reads IH]; intros count.
  - cbn. unfold reads_ok. cbn. lia.
  - rewrite data_processor_run_cons, reads_ok_cons. cbn [fst snd length].
    rewrite delay_ticks_app, IH.
    destruct latest as [s|]; cbn [data_processor_cycle fst snd].
    + rewrite delay_ticks_app. destruct (_ =? 0); cbn [delay_ticks]; lia.
    + cbn [delay_ticks]. lia.
Qed.

(** ** [event_handler] and [wifi_init_sta] *)

Lemma land_pow2 (b k : Z) :
  0 <= k -> Z.land b (2 ^ k) = if Z.testbit b k then 2 ^ k else 0.
Proof.
  intros Hk. apply Z.bits_inj'. intros n Hn.
  rewrite Z.land_spec, Z.pow2_bits_eqb by done.
  destruct (Z.eqb_spec k n) as [->|Hne].
  - destruct (Z.testbit b n); cbn.
    + by rewrite Z.pow2_bits_true.
    + by rewrite Z.bits_0.
  - rewrite andb_false_r. destruct (Z.testbit b k).
    + rewrite Z.pow2_bits_false; [done|lia].
    + by rewrite Z.bits_0.
Qed.

Lemma land_connected_bit b :
  (Z.land b WIFI_CONNECTED_BIT =? 0) = negb (Z.testbit b 0).
Proof.
  change WIFI_CONNECTED_BIT with (2 ^ 0). rewrite land_pow2 by lia.
  by destruct (Z.testbit b 0).
Qed.

Lemma land_fail_bit b :
  (Z.land b WIFI_FAIL_BIT =? 0) = negb (Z.testbit b 1).
Proof.
  change WIFI_FAIL_BIT with (2 ^ 1). rewrite land_pow2 by lia.
  by destruct (Z.testbit b 1).
Qed.

Lemma event_handler_run_cons st ev evs :
  event_handler_run st (ev :: evs)
  = (fst (event_handler_run (fst (event_handler st ev)) evs),
     snd (event_handler st ev)
       ++ snd (event_handler_run (fst (event_handler st ev)) evs)).
Proof.
  cbn [event_handler_run]. destruct (event_handler st ev) as [st1 calls].
  cbn [fst snd]. by destruct (event_handler_run st1 evs).
Qed.

(** One event, on the two statics. *)
Lemma event_handler_state st ev :
  fst (event_handler st ev)
  = match ev with
    | WIFI_EVENT WIFI_EVENT_STA_DISCONNECTED =>
        if decide (s_retry_num st < WIFI_MAXIMUM_RETRY) then
          {| s_retry_num := s_retry_num st + 1;
             s_wifi_event_group := s_wifi_event_group st |}
        else
          {| s_retry_num := s_retry_num st;
             s_wifi_event_group := Z.lor (s_wifi_event_group st) WIFI_FAIL_BIT |}
    | IP_EVENT IP_EVENT_STA_GOT_IP =>
        {| s_retry_num := 0;
           s_wifi_event_group := Z.lor (s_wifi_event_group st) WIFI_CONNECTED_BIT |}
    | _ => st
    end.
Proof.
  destruct ev as [[| |id]|[|id]|]; cbn [event_handler]; try done.
  case_decide as H.
  - by rewrite (proj2 (Z.ltb_lt _ _) H).
  - by rewrite (proj2 (Z.ltb_nlt _ _) H).
Qed.

Lemma event_handler_retry_range st ev :
  0 <= s_retry_num st <= WIFI_MAXIMUM_RETRY ->
  0 <= s_retry_num (fst (event_handler st ev)) <= WIFI_MAXIMUM_RETRY.
Proof.
  intros Hr. rewrite event_handler_state. unfold WIFI_MAXIMUM_RETRY in *.
  destruct ev as [[| |id]|[|id]|]; repeat case_decide; cbn; lia.
Qed.

Lemma event_handler_run_retry_range evs : forall st,
  0 <= s_retry_num st <= WIFI_MAXIMUM_RETRY ->
  0 <= s_retry_num (fst (event_handler_run st evs)) <= WIFI_MAXIMUM_RETRY.
Proof.
  induction evs as [|ev evs IH]; intros st Hr; [done|].
  rewrite event_handler_run_cons. cbn [fst].
  by apply IH, event_handler_retry_range.
Qed.

(** X8. The retry counter stays within its budget: whatever events the
    event loop delivers after start-up, in whatever order,
    [s_retry_num] is between 0 and [WIFI_MAXIMUM_RETRY]. *)
Theorem event_handler_retry_bounded (evs : list esp_event_t) :
  0 <= s_retry_num (fst (event_handler_run wifi_state_init evs))
  <= WIFI_MAXIMUM_RETRY.
Proof.
  apply event_handler_run_retry_range. unfold WIFI_MAXIMUM_RETRY. cbn. lia.
Qed.

(** X9. A run of [n] disconnections in a row, met with [r] retries already
    spent, reconnects [min(n, 5 - r)] times and no more: the counter ends at
    [min(5, r + n)], and [WIFI_FAIL_BIT] is raised exactly when the run is
    longer than the retries left. *)
Theorem event_handler_disconnects (n : nat) :
  forall st,
    0 <= s_retry_num st <= WIFI_MAXIMUM_RETRY ->
    s_retry_num (fst (event_handler_run st
                        (replicate n (WIFI_EVENT WIFI_EVENT_STA_DISCONNECTED))))
    = Z.min WIFI_MAXIMUM_RETRY (s_retry_num st + Z.of_nat n) /\
    Z.of_nat (connect_calls
                (snd (event_handler_run st
                        (replicate n (WIFI_EVENT WIFI_EVENT_STA_DISCONNECTED)))))
    = Z.min (Z.of_nat n) (WIFI_MAXIMUM_RETRY - s_retry_num st) /\
    s_wifi_event_group
      (fst (event_handler_run st
              (replicate n (WIFI_EVENT WIFI_EVENT_STA_DISCONNECTED))))
    = if decide (WIFI_MAXIMUM_RETRY - s_retry_num st < Z.of_nat n)
      then Z.lor (s_wifi_event_group st) WIFI_FAIL_BIT
      else s_wifi_event_group st.
Proof.
  induction n as [|n IH]; intros st Hr.
  - cbn [replicate event_handler_run fst snd]. unfold connect_calls. cbn.
    case_decide; lia.
  - cbn [replicate]. rewrite event_handler_run_cons. cbn [fst snd].
    unfold connect_calls in *. rewrite List.filter_app, length_app.
    pose proof (event_handler_retry_range st
                  (WIFI_EVENT WIFI_EVENT_STA_DISCONNECTED) Hr) as Hr1.
    destruct (IH _ Hr1) as (-> & IHc & ->). clear IH.
    rewrite Nat2Z.inj_add, IHc. clear IHc.
    rewrite event_handler_state in *. cbn [event_handler].
    unfold WIFI_MAXIMUM_RETRY in *.
    destruct (decide (s_retry_num st < 5)) as [Hlt|Hge].
    + rewrite (proj2 (Z.ltb_lt _ _) Hlt). cbn.
      repeat case_decide; repeat split; lia.
    + rewrite (proj2 (Z.ltb_nlt _ _) Hge). cbn.
      repeat case_decide; repeat split; try lia.
      by rewrite <- Z.lor_assoc.
Qed.

Lemma event_handler_disconnects_witness :
  0 <= s_retry_num wifi_state_init <= WIFI_MAXIMUM_RETRY /\
  Z.of_nat (connect_calls
              (snd (event_handler_run wifi_state_init
                      (replicate 7 (WIFI_EVENT WIFI_EVENT_STA_DISCONNECTED)))))
  = Z.min (Z.of_nat 7) (WIFI_MAXIMUM_RETRY - s_retry_num wifi_state_init).
Proof.
  assert (Hr : 0 <= s_retry_num wifi_state_init <= WIFI_MAXIMUM_RETRY)
    by (unfold WIFI_MAXIMUM_RETRY; cbn; lia).
  refine (conj Hr _).
  exact (proj1 (proj2 (event_handler_disconnects 7 wifi_state_init Hr))).
Defined.

Lemma event_handler_bits_kept st ev k :
  Z.testbit (s_wifi_event_group st) k = true ->
  Z.testbit (s_wifi_event_group (fst (event_handler st ev))) k = true.
Proof.
  intros Hk. rewrite event_handler_state.
  destruct ev as [[| |id]|[|id]|]; repeat case_decide; cbn; try done;
    by rewrite Z.lor_spec, Hk.
Qed.

(** X10. The handler only ever raises bits of the event group: a bit that is
    set stays set through any sequence of events, so a connection reported
    once is never taken back, nor a failure. *)
Theorem event_handler_bits_monotone (evs : list esp_event_t) :
  forall st k,
    Z.testbit (s_wifi_event_group st) k = true ->
    Z.testbit (s_wifi_event_group (fst (event_handler_run st evs))) k = true.
Proof.
  induction evs as [|ev evs IH]; intros st k Hk; [done|].
  rewrite event_handler_run_cons. cbn [fst].
  by apply IH, event_handler_bits_kept.
Qed.

Lemma event_handler_bits_monotone_witness :
  Z.testbit (s_wifi_event_group {| s_retry_num := 0; s_wifi_event_group := 1 |}) 0
  = true /\
  Z.testbit
    (s_wifi_event_group
       (fst (event_handler_run {| s_retry_num := 0; s_wifi_event_group := 1 |}
               (replicate 6 (WIFI_EVENT WIFI_EVENT_STA_DISCONNECTED))))) 0
  = true.
Proof.
  assert (Hk : Z.testbit (s_wifi_event_group
                            {| s_retry_num := 0; s_wifi_event_group := 1 |}) 0
               = true) by reflexivity.
  refine (conj Hk _).
  exact (event_handler_bits_monotone _ _ 0 Hk).
Defined.

(** The connected bit, from any state: set afterwards exactly when it was
    set before or the address arrived. *)
Lemma event_handler_run_connected evs : forall st,
  Z.testbit (s_wifi_event_group (fst (event_handler_run st evs))) 0 = true <->
  Z.testbit (s_wifi_event_group st) 0 = true \/
  In (IP_EVENT IP_EVENT_STA_GOT_IP) evs.
Proof.
  induction evs as [|ev evs IH]; intros st.
  - cbn. tauto.
  - rewrite event_handler_run_cons. cbn [fst]. rewrite IH, event_handler_state.
    cbn [In].
    destruct ev as [[| |id]|[|id]|]; repeat case_decide;
      cbn [s_wifi_event_group]; rewrite ?Z.lor_spec;
      change (Z.testbit WIFI_CONNECTED_BIT 0) with true;
      change (Z.testbit WIFI_FAIL_BIT 0) with false;
      rewrite ?orb_true_r, ?orb_false_r; intuition congruence.
Qed.

(** The fail bit, from any state within the retry budget: raised only by a
    disconnection that finds the budget spent. *)
Lemma event_handler_run_failed evs : forall st,
  0 <= s_retry_num st <= WIFI_MAXIMUM_RETRY ->
  Z.testbit (s_wifi_event_group st) 1 = false ->
  Z.testbit (s_wifi_event_group (fst (event_handler_run st evs))) 1 = true ->
  WIFI_MAXIMUM_RETRY - s_retry_num st < Z.of_nat (disconnects evs).
Proof.
  induction evs as [|ev evs IH]; intros st Hr Hbit Hset.
  - cbn [event_handler_run fst] in Hset. congruence.
  - rewrite event_handler_run_cons in Hset. cbn [fst] in Hset.
    pose proof (event_handler_retry_range st ev Hr) as Hr1.
    specialize (IH (fst (event_handler st ev)) Hr1).
    rewrite event_handler_state in IH, Hr1, Hset.
    unfold disconnects in *. cbn [List.filter].
    unfold WIFI_MAXIMUM_RETRY in *.
    destruct ev as [[| |id]|[|id]|]; cbn [length] in *;
      try (specialize (IH Hbit Hset); lia).
    + case_decide as Hlt; cbn [s_retry_num s_wifi_event_group] in IH, Hr1, Hset.
      * specialize (IH Hbit Hset). lia.
      * lia.
    + cbn [s_retry_num s_wifi_event_group] in IH, Hr1, Hset.
      rewrite Z.lor_spec, Hbit in IH.
      specialize (IH eq_refl Hset). lia.
Qed.

(** X11. What the event group says after start-up is what happened:
    [WIFI_CONNECTED_BIT] is set exactly when an [IP_EVENT_STA_GOT_IP] was
    handled, and [WIFI_FAIL_BIT] only after more than [WIFI_MAXIMUM_RETRY]
    disconnections. *)
Theorem event_handler_bits_meaning (evs : list esp_event_t) :
  (Z.testbit (s_wifi_event_group (fst (event_handler_run wifi_state_init evs))) 0
   = true <-> In (IP_EVENT IP_EVENT_STA_GOT_IP) evs) /\
  (Z.testbit (s_wifi_event_group (fst (event_handler_run wifi_state_init evs))) 1
   = true -> WIFI_MAXIMUM_RETRY < Z.of_nat (disconnects evs)).
Proof.
  split.
  - rewrite event_handler_run_connected. cbn. intuition congruence.
  - intros Hset.
    pose proof (event_handler_run_failed evs wifi_state_init) as H.
    cbn [wifi_state_init s_retry_num s_wifi_event_group] in H.
    rewrite Z.sub_0_r in H. apply H; [unfold WIFI_MAXIMUM_RETRY; lia|done|done].
Qed.

(** X12. [wifi_init_sta] reports a connection exactly when an address
    arrived, even if the retries ran out before; it reports a failure only
    when no address arrived and more than [WIFI_MAXIMUM_RETRY]
    disconnections did; and it takes the "unexpected event" branch only on
    bits that do not satisfy its wait, with neither of the two bits set. *)
Theorem wifi_init_sta_reports (evs : list esp_event_t) :
  let bits := s_wifi_event_group (fst (event_handler_run wifi_state_init evs)) in
  (wifi_init_sta_outcome bits = Wifi_connected <->
   In (IP_EVENT IP_EVENT_STA_GOT_IP) evs) /\
  (wifi_init_sta_outcome bits = Wifi_failed ->
   ~ In (IP_EVENT IP_EVENT_STA_GOT_IP) evs /\
   WIFI_MAXIMUM_RETRY < Z.of_nat (disconnects evs)) /\
  (wifi_init_sta_outcome bits = Wifi_unexpected <->
   Z.land bits (Z.lor WIFI_CONNECTED_BIT WIFI_FAIL_BIT) = 0).
Proof.
  intros bits.
  assert (Hc : Z.testbit bits 0 = true <-> In (IP_EVENT IP_EVENT_STA_GOT_IP) evs).
  { unfold bits. rewrite event_handler_run_connected. cbn. intuition congruence. }
  assert (Hf : Z.testbit bits 1 = true ->
               WIFI_MAXIMUM_RETRY < Z.of_nat (disconnects evs)).
  { intros Hset.
    pose proof (event_handler_run_failed evs wifi_state_init) as H.
    cbn [wifi_state_init s_retry_num s_wifi_event_group] in H.
    rewrite Z.sub_0_r in H. apply H; [unfold WIFI_MAXIMUM_RETRY; lia|done|done]. }
  assert (Hland : Z.land bits (Z.lor WIFI_CONNECTED_BIT WIFI_FAIL_BIT) = 0 <->
                  Z.testbit bits 0 = false /\ Z.testbit bits 1 = false).
  { rewrite Z.land_lor_distr_r, Z.lor_eq_0_iff, <- !Z.eqb_eq.
    rewrite land_connected_bit, land_fail_bit.
    destruct (Z.testbit bits 0), (Z.testbit bits 1); cbn; intuition congruence. }
  unfold wifi_init_sta_outcome.
  rewrite Hland, land_connected_bit, land_fail_bit.
  clearbody bits. clear Hland.
  destruct (Z.testbit bits 0), (Z.testbit bits 1); cbn [negb];
    (split; [|split]); intuition (try congruence; auto).
Qed.
